(** * caddy_rest_storage: the REST storage adapter of [rest.go]

    A shallow embedding of the adapter that exposes a remote key-value
    store, reached by HTTP POST, as a certmagic storage backend, together
    with the properties its specification states.

    Layout of the model:
    - [Base64]: the standard base64 encoding that [Store] and [Load] apply
      to values ([encoding/base64], [StdEncoding]);
    - [Text], [Fmt]: the part of [fmt.Errorf] the error messages go through;
    - [Http]: requests, responses, clients, the [Do] event and the runner
      that plays a program against a transport;
    - [Calendar], [GoTime]: [time.Parse] for the layout [time.RFC3339];
    - [Go]: the calls into [encoding/json] and [net/url], as an interface,
      and the calls into [time];
    - [Caddyfile]: the token dispenser [UnmarshalCaddyfile] reads from;
    - [Rest]: [src/rest.go]; [Storage]: its methods as the storage
      interface of the host;
    - [Rest0]: the earlier revision of the same file kept in
      [src/unnamed/part_000] (no contexts, no 404 branch);
    - [RFC3339]: what a date-time string denotes according to RFC 3339;
    - [Sim]: a simulated remote to run the operations on;
    - [Shape]: the reading of each operation as request, call and reply.
    The properties follow, one module per subject. *)

From Stdlib Require Import ZArith List String Ascii Bool Lia.
From Stdlib.Strings Require Import Byte.
From Stdlib Require Import DecimalString DecimalZ DecimalPos.
From ITree Require Import ITree ITreeFacts.
From Equations Require Import Equations.
Import ListNotations.

Local Open Scope string_scope.
Local Open Scope Z_scope.
Local Open Scope list_scope.

(** Go's [error]: [None] is [nil]. The constructors are the errors that can
    reach a caller of the adapter. *)
Inductive cause : Type :=
| Canceled                           (* context.Canceled *)
| DeadlineExceeded                   (* context.DeadlineExceeded *)
| NetError (msg : string).           (* dial, DNS, TLS, ... *)

(** [*url.Error], the only error [http.Client.Do] returns. *)
Record url_Error : Type := { Op : string; Url : string; Err : cause }.

Inductive error : Type :=
| MarshalError (msg : string)        (* from json.Marshal *)
| RequestError (msg : string)        (* from http.NewRequestWithContext *)
| UrlError (e : url_Error)           (* from client.Do *)
| ErrNotExist                        (* fs.ErrNotExist *)
| errorString (s : string)           (* errors.New, fmt.Errorf without %w *)
| DecodeError (msg : string)         (* from json.Decoder.Decode *)
| CorruptInputError (offset : Z)     (* from base64 *)
| ParseError (layout value : string). (* from time.Parse *)

(* ------------------------------------------------------------------ *)
(** ** encoding/base64, StdEncoding *)

Module Base64.

Definition encodeStd : string :=
  "ABCDEFGHIJKLMNOPQRSTUVWXYZabcdefghijklmnopqrstuvwxyz0123456789+/".

Definition padChar : ascii := "="%char.
Definition NL : ascii := "010"%char.
Definition CR : ascii := "013"%char.

(** [enc.encode[i]]: the i-th character of the alphabet. *)
Definition encode (i : Z) : ascii :=
  match String.get (Z.to_nat i) encodeStd with
  | Some c => c
  | None => "000"%char
  end.

Fixpoint index_from (c : ascii) (s : string) (i : Z) : Z :=
  match s with
  | EmptyString => 255
  | String c' s' => if Ascii.eqb c c' then i else index_from c s' (i + 1)
  end.

(** [enc.decodeMap[c]]: the index of [c] in the alphabet, 0xff for a
    character outside it. *)
Definition decodeMap (c : ascii) : Z := index_from c encodeStd 0.

Definition uint (b : byte) : Z := Z.of_N (Byte.to_N b).

(** Go's conversion [byte(x)] of an unsigned integer: the low eight bits. *)
Definition to_byte (x : Z) : byte :=
  match Byte.of_N (Z.to_N (Z.land x 255)) with
  | Some b => b
  | None => x00
  end.

(** [Encoding.Encode]: three source bytes give four characters; a
    remainder of one or two bytes is padded with [=]. *)
Fixpoint EncodeToString (src : list byte) : string :=
  match src with
  | [] => EmptyString
  | [b0] =>
      let val := Z.shiftl (uint b0) 16 in
      String (encode (Z.land (Z.shiftr val 18) 63))
        (String (encode (Z.land (Z.shiftr val 12) 63))
           (String padChar (String padChar EmptyString)))
  | [b0; b1] =>
      let val := Z.lor (Z.shiftl (uint b0) 16) (Z.shiftl (uint b1) 8) in
      String (encode (Z.land (Z.shiftr val 18) 63))
        (String (encode (Z.land (Z.shiftr val 12) 63))
           (String (encode (Z.land (Z.shiftr val 6) 63))
              (String padChar EmptyString)))
  | b0 :: b1 :: b2 :: rest =>
      let val := Z.lor (Z.lor (Z.shiftl (uint b0) 16) (Z.shiftl (uint b1) 8))
                       (uint b2) in
      String (encode (Z.land (Z.shiftr val 18) 63))
        (String (encode (Z.land (Z.shiftr val 12) 63))
           (String (encode (Z.land (Z.shiftr val 6) 63))
              (String (encode (Z.land val 63))
                 (EncodeToString rest))))
  end.

(** The tail of [decodeQuantum]: four 6-bit values [dbuf] are packed into
    [val] and the first [dlen - 1] of its three bytes are written. *)
Definition quantum (dbuf : list Z) (dlen : nat) : list byte :=
  let d i := nth i dbuf 0 in
  let val := Z.lor (Z.lor (Z.lor (Z.shiftl (d 0%nat) 18) (Z.shiftl (d 1%nat) 12))
                          (Z.shiftl (d 2%nat) 6)) (d 3%nat) in
  firstn (dlen - 1)
    [to_byte (Z.shiftr val 16); to_byte (Z.shiftr val 8); to_byte (Z.shiftr val 0)].

Fixpoint skipNewlines (si : Z) (src : string) : Z * string :=
  match src with
  | String c rest =>
      if (Ascii.eqb c NL || Ascii.eqb c CR)%bool
      then skipNewlines (si + 1) rest
      else (si, src)
  | EmptyString => (si, src)
  end.

(** [Encoding.Decode] with [decodeQuantum] inlined: one pass over the
    input that keeps the quantum being filled ([j] values in [dbuf]), the
    offset [si] of the next character and the bytes written so far.
    Newlines are skipped; padding ends the input. What has been decoded
    before an error is returned with the error, as Go does. *)
Fixpoint decode (j : nat) (dbuf : list Z) (si : Z) (src : string)
         (dst : list byte) : list byte * option error :=
  match src with
  | EmptyString =>
      match j with
      | O => (dst, None)
      | _ => (dst, Some (CorruptInputError (si - Z.of_nat j)))
      end
  | String c rest =>
      let si := si + 1 in
      let out := decodeMap c in
      if negb (out =? 255) then
        match j with
        | 3%nat => decode 0 [] si rest (dst ++ quantum (dbuf ++ [out]) 4)
        | _ => decode (S j) (dbuf ++ [out]) si rest dst
        end
      else if (Ascii.eqb c NL || Ascii.eqb c CR)%bool then
        decode j dbuf si rest dst
      else if negb (Ascii.eqb c padChar) then
        (dst, Some (CorruptInputError (si - 1)))
      else
        match j with
        | 0%nat | 1%nat => (dst, Some (CorruptInputError (si - 1)))
        | 2%nat =>
            let '(si, rest) := skipNewlines si rest in
            match rest with
            | EmptyString => (dst, Some (CorruptInputError si))
            | String c' rest' =>
                if negb (Ascii.eqb c' padChar)
                then (dst, Some (CorruptInputError (si - 1)))
                else
                  let '(si, rest') := skipNewlines (si + 1) rest' in
                  match rest' with
                  | EmptyString => (dst ++ quantum dbuf 2, None)
                  | _ => (dst ++ quantum dbuf 2, Some (CorruptInputError si))
                  end
            end
        | _ =>
            let '(si, rest) := skipNewlines si rest in
            match rest with
            | EmptyString => (dst ++ quantum dbuf j, None)
            | _ => (dst ++ quantum dbuf j, Some (CorruptInputError si))
            end
        end
  end.

Definition DecodeString (s : string) : list byte * option error :=
  decode 0 [] 0 s [].

End Base64.

(* ------------------------------------------------------------------ *)
(** ** Text *)

Module Text.

(** [s] without its prefix [p], if it starts with it. *)
Fixpoint strip_prefix (p s : string) : option string :=
  match p with
  | EmptyString => Some s
  | String c p' =>
      match s with
      | String c' s' => if Ascii.eqb c c' then strip_prefix p' s' else None
      | EmptyString => None
      end
  end.

(** The text before the first [c] and the text after it. *)
Fixpoint until (c : ascii) (s : string) : option (string * string) :=
  match s with
  | EmptyString => None
  | String c' s' =>
      if Ascii.eqb c c' then Some (EmptyString, s')
      else match until c s' with
           | Some (a, b) => Some (String c' a, b)
           | None => None
           end
  end.

(** The value of a decimal digit. *)
Definition digit (c : ascii) : option Z :=
  let n := Z.of_nat (nat_of_ascii c) in
  if ((48 <=? n) && (n <=? 57))%bool then Some (n - 48) else None.

(** [s[:n]] and [s[n:]], cut short at the end of [s]. *)
Fixpoint take (n : nat) (s : string) : string :=
  match n, s with
  | S n', String c s' => String c (take n' s')
  | _, _ => EmptyString
  end.

Fixpoint drop (n : nat) (s : string) : string :=
  match n, s with
  | S n', String _ s' => drop n' s'
  | _, _ => s
  end.

End Text.

(* ------------------------------------------------------------------ *)
(** ** fmt.Errorf *)

Module Fmt.

(** [%v] and [%d] of an int. *)
Definition itoa (n : Z) : string := NilZero.string_of_int (Z.to_int n).

(** The operands left over after the format is consumed:
    [int=1, int=2]. *)
Fixpoint extras (a : list Z) : string :=
  match a with
  | [] => EmptyString
  | [x] => String.append "int=" (itoa x)
  | x :: a' => String.append "int=" (String.append (itoa x) (String.append ", " (extras a')))
  end.

(** [fmt.Sprintf] on int operands. Text is copied; [%v] and [%d] print the
    next operand, [%%] a percent sign; operands that no verb consumed are
    appended as [%!(EXTRA int=...)]. Flags, widths and the other verbs Go
    accepts for an int are outside the model: such a verb is printed like
    one Go rejects, [%!c(int=...)]. The adapter's only format string has
    no [%] at all. *)
Definition extra (a : list Z) : string :=
  match a with
  | [] => EmptyString
  | _ => String.append "%!(EXTRA " (String.append (extras a) ")")
  end.

Fixpoint Sprintf (format : string) (a : list Z) : string :=
  match format with
  | EmptyString => extra a
  | String c rest =>
      if negb (Ascii.eqb c "%") then String c (Sprintf rest a)
      else
        match rest with
        | EmptyString => String.append "%!(NOVERB)" (extra a)
        | String v rest' =>
            if Ascii.eqb v "%" then String "%" (Sprintf rest' a)
            else
              match a with
              | [] =>
                  String.append "%!"
                    (String v (String.append "(MISSING)" (Sprintf rest' [])))
              | x :: a' =>
                  if (Ascii.eqb v "v" || Ascii.eqb v "d")%bool
                  then String.append (itoa x) (Sprintf rest' a')
                  else String.append "%!"
                         (String v (String.append "(int="
                            (String.append (itoa x)
                               (String.append ")" (Sprintf rest' a')))))
              end
        end
  end.

Definition Errorf (format : string) (a : list Z) : error :=
  errorString (Sprintf format a).

End Fmt.

(* ------------------------------------------------------------------ *)
(** ** net/http as the adapter sees it *)

Module Http.

(** A [context.Context] is a handle; whether it is done is a fact of the
    world the call runs in. *)
Variant Context : Type :=
| Background
| Caller (id : nat).

Record Request : Type := {
  Method : string;
  URL : string;
  Ctx : Context;
  Header : list (string * string);
  Body : string
}.

Record Response : Type := {
  StatusCode : Z;
  RespBody : string
}.

Definition Header_Add (req : Request) (key value : string) : Request :=
  {| Method := Method req; URL := URL req; Ctx := Ctx req;
     Header := Header req ++ [(key, value)]; Body := Body req |}.

(** [http.Client]. The adapter only ever makes the zero value,
    [http.Client{}], which is also what [http.DefaultClient] points to. A
    [*http.Client] is an [option Client]: [None] is the nil pointer. *)
Variant Client : Type := Client_zero.

(** The one effect of the adapter: [client.Do(req)], with the pointer it
    is called on. *)
Variant httpE : Type -> Type :=
| Do (client : option Client) (req : Request) : httpE (Response + url_Error).

(** A transport answers a request in a world and leaves a new world: the
    network, the remote service and the clock together. *)
Definition Transport (W : Type) : Type :=
  Request -> W -> (Response + url_Error) * W.

Record Exchange (W : Type) : Type := {
  before : W;
  sent : Request;
  got : Response + url_Error
}.
Arguments before {W}.
Arguments sent {W}.
Arguments got {W}.

(** [run tr fuel t w] plays the program [t] against the transport from the
    world [w], for at most [fuel] nodes of the tree. The result is [None]
    when the program has not returned: it is still running when the fuel
    is spent, or it has stopped in a panic ([Do] on a nil client
    dereferences the nil pointer; nothing is sent and nothing runs after
    it). The exchanges made so far are reported in every case. *)
Fixpoint run {W R : Type} (tr : Transport W) (fuel : nat) (t : itree httpE R)
         (w : W) : option R * W * list (Exchange W) :=
  match fuel with
  | O => (None, w, [])
  | S fuel' =>
      match observe t with
      | RetF r => (Some r, w, [])
      | TauF t' => run tr fuel' t' w
      | VisF e k =>
          match e in httpE X return (X -> itree httpE R) -> _ with
          | Do None req => fun _ => (None, w, [])
          | Do (Some _) req => fun k =>
              let '(out, w1) := tr req w in
              let '(r, w2, log) := run tr fuel' (k out) w1 in
              (r, w2, {| before := w; sent := req; got := out |} :: log)
          end k
      end
  end.

(** Whether the program, played the same way, stops in a panic within
    [fuel] nodes. *)
Fixpoint panics {W R : Type} (tr : Transport W) (fuel : nat) (t : itree httpE R)
         (w : W) : bool :=
  match fuel with
  | O => false
  | S fuel' =>
      match observe t with
      | RetF _ => false
      | TauF t' => panics tr fuel' t' w
      | VisF e k =>
          match e in httpE X return (X -> itree httpE R) -> _ with
          | Do None req => fun _ => true
          | Do (Some _) req => fun k =>
              let '(out, w1) := tr req w in panics tr fuel' (k out) w1
          end k
      end
  end.

(** The last exchange of a log. *)
Fixpoint last_exchange {W : Type} (log : list (Exchange W))
  : option (Exchange W) :=
  match log with
  | [] => None
  | [x] => Some x
  | _ :: l => last_exchange l
  end.

(** The status a logged exchange ended with, if a response came back. *)
Definition status_of {W : Type} (x : Exchange W) : option Z :=
  match got x with
  | inl resp => Some (StatusCode resp)
  | inr _ => None
  end.

End Http.

(* ------------------------------------------------------------------ *)
(** ** time: the Gregorian calendar and [time.Parse] *)

Module Calendar.

Definition isLeap (y : Z) : bool :=
  ((y mod 4 =? 0) && (negb (y mod 100 =? 0) || (y mod 400 =? 0)))%bool.

Definition daysIn (m y : Z) : Z :=
  if m =? 2 then (if isLeap y then 29 else 28)
  else if ((m =? 4) || (m =? 6) || (m =? 9) || (m =? 11))%bool then 30
  else 31.

(** Days from 1970-01-01 to the given date of the proleptic Gregorian
    calendar. *)
Definition days (y m d : Z) : Z :=
  let y' := if m <=? 2 then y - 1 else y in
  let era := y' / 400 in
  let yoe := y' - era * 400 in
  let mp := (m + 9) mod 12 in
  let doy := (153 * mp + 2) / 5 + d - 1 in
  let doe := yoe * 365 + yoe / 4 - yoe / 100 + doy in
  era * 146097 + doe - 719468.

(** Seconds from 1970-01-01T00:00:00Z to a civil date and time of day read
    in UTC. *)
Definition unix_of (y m d hh mi ss : Z) : Z :=
  days y m d * 86400 + hh * 3600 + mi * 60 + ss.

End Calendar.

Module GoTime.
Import Text Calendar.

Notation "'do' x <- e ; k" :=
  (match e with Some x => k | None => None end)
  (at level 10, x pattern, e at level 100, k at level 200, only parsing).

(** A [time.Time]: the instant as seconds since 1970-01-01T00:00:00Z and
    nanoseconds within the second, and the offset of its location in
    seconds east of UTC. *)
Record Time : Type := { unix : Z; nsec : Z; offset : Z }.

(** [time.Time{}]: January 1, year 1, 00:00:00 UTC. *)
Definition zero : Time :=
  {| unix := -62135596800; nsec := 0; offset := 0 |}.

(** [leadingInt]: the digits at the head of [s] and what follows them. *)
Fixpoint leadingInt (x : Z) (s : string) : Z * string :=
  match s with
  | String c rest =>
      match digit c with
      | Some d => leadingInt (x * 10 + d) rest
      | None => (x, s)
      end
  | EmptyString => (x, s)
  end.

(** [atoi]: an optional sign and digits to the end. *)
Definition atoi (s : string) : option Z :=
  let '(neg, s) :=
    match s with
    | String c rest =>
        if (Ascii.eqb c "-" || Ascii.eqb c "+")%bool then (Ascii.eqb c "-", rest)
        else (false, s)
    | EmptyString => (false, s)
    end in
  match leadingInt 0 s with
  | (q, EmptyString) => Some (if neg then - q else q)
  | _ => None
  end.

(** [getnum(s, fixed)]: one or two digits, exactly two when [fixed]. *)
Definition getnum (s : string) (fixed : bool) : option (Z * string) :=
  match s with
  | String c0 rest =>
      match digit c0 with
      | None => None
      | Some d0 =>
          match rest with
          | String c1 rest' =>
              match digit c1 with
              | Some d1 => Some (d0 * 10 + d1, rest')
              | None => if fixed then None else Some (d0, rest)
              end
          | EmptyString => if fixed then None else Some (d0, rest)
          end
      end
  | EmptyString => None
  end.

(** [skip(value, prefix)] for a prefix of one character that is no space. *)
Definition skip (value : string) (prefix : ascii) : option string :=
  match value with
  | String c rest => if Ascii.eqb c prefix then Some rest else None
  | EmptyString => None
  end.

Definition commaOrPeriod (c : ascii) : bool :=
  (Ascii.eqb c "." || Ascii.eqb c ",")%bool.

Definition is_digit (c : ascii) : bool :=
  match digit c with Some _ => true | None => false end.

(** The digits at the head of [s], counted. *)
Fixpoint digits (s : string) : nat :=
  match s with
  | String c rest => if is_digit c then S (digits rest) else O
  | EmptyString => O
  end.

(** [parseNanoseconds(value, nbytes)]: [value] starts with the separator;
    at most nine digits count. *)
Definition parseNanoseconds (value : string) (nbytes : nat) : option Z :=
  match value with
  | String c _ =>
      if negb (commaOrPeriod c) then None
      else
        let nbytes := if (10 <? nbytes)%nat then 10%nat else nbytes in
        do ns <- atoi (take (nbytes - 1) (drop 1 value));
        if ns <? 0 then None
        else Some (ns * 10 ^ Z.of_nat (10 - nbytes))
  | EmptyString => None
  end.

(** The case [stdLongYear]. *)
Definition longYear (value : string) : option (Z * string) :=
  match value with
  | String c _ =>
      if ((String.length value <? 4)%nat || negb (is_digit c))%bool then None
      else do year <- atoi (take 4 value); Some (year, drop 4 value)
  | EmptyString => None
  end.

(** The seconds' special case: a fractional second in the input where the
    layout has none. *)
Definition fractional (value : string) : option (Z * string) :=
  match value with
  | String c0 (String c1 rest) =>
      if (commaOrPeriod c0 && is_digit c1)%bool then
        let n := (2 + digits rest)%nat in
        do ns <- parseNanoseconds value n;
        Some (ns, drop n value)
      else Some (0, value)
  | _ => Some (0, value)
  end.

(** The case [stdISO8601ColonTZ]: [None] for [Z], else the offset in
    seconds. *)
Definition colonTZ (value : string) : option (option Z * string) :=
  match value with
  | String "Z" rest => Some (None, rest)
  | _ =>
      if (String.length value <? 6)%nat then None
      else
        match String.get 3 value with
        | Some ":"%char =>
            let sign := take 1 value in
            let hour := take 2 (drop 1 value) in
            let min := take 2 (drop 4 value) in
            let value := drop 6 value in
            do (hr, _) <- getnum hour true;
            do (mm, _) <- getnum min true;
            if ((24 <? hr) || (60 <? mm))%bool then None
            else
              let zoneOffset := (hr * 60 + mm) * 60 in
              if String.eqb sign "+" then Some (Some zoneOffset, value)
              else if String.eqb sign "-" then Some (Some (- zoneOffset), value)
              else None
        | _ => None
        end
  end.

(** [time.Parse(time.RFC3339, value)]: the loop of [parse] run over the
    layout [2006-01-02T15:04:05Z07:00], one element after the other: the
    year, then for each further element the text before it and its
    value. A value out of range and text left over are errors like any
    other; the day is checked against the month at the end. [time.Date] is
    [Calendar.unix_of]. *)
Definition parse (value : string) : option Time :=
  do (year, value) <- longYear value;
  do value <- skip value "-";
  do (month, value) <- getnum value true;
  if ((month <=? 0) || (12 <? month))%bool then None else
  do value <- skip value "-";
  do (day, value) <- getnum value true;
  do value <- skip value "T";
  do (hour, value) <- getnum value false;
  if ((hour <? 0) || (24 <=? hour))%bool then None else
  do value <- skip value ":";
  do (min, value) <- getnum value true;
  if ((min <? 0) || (60 <=? min))%bool then None else
  do value <- skip value ":";
  do (sec, value) <- getnum value true;
  if ((sec <? 0) || (60 <=? sec))%bool then None else
  do (nsec, value) <- fractional value;
  do (z, value) <- colonTZ value;
  match value with
  | String _ _ => None
  | EmptyString =>
      if ((day <? 1) || (daysIn month year <? day))%bool then None
      else
        match z with
        | None =>
            Some {| unix := unix_of year month day hour min sec;
                    nsec := nsec; offset := 0 |}
        | Some zoneOffset =>
            Some {| unix := unix_of year month day hour min sec - zoneOffset;
                    nsec := nsec; offset := zoneOffset |}
        end
  end.

End GoTime.

(* ------------------------------------------------------------------ *)
(** ** The library calls of the adapter

    [encoding/json] and [net/url] are collaborators of the adapter, not
    part of it: the operations are written over the interface [Lib] and
    hold for every implementation of it. [time.Parse] is the one of
    [GoTime]. *)

Module Go.
Import Http.

Inductive jvalue : Type :=
| JString (s : string)
| JBool (b : bool).

(** A struct value seen through its [json] tags. *)
Definition jstruct : Type := list (string * jvalue).

Record LoadResponse : Type := { LoadResponse_Value : string }.
Record ExistsResponse : Type := { ExistsResponse_Exists : bool }.
Record ListResponse : Type := { ListResponse_Keys : list string }.
Record StatResponse : Type := {
  StatResponse_Key : string;
  StatResponse_Modified : string;
  StatResponse_Size : Z;
  StatResponse_IsTerminal : bool
}.

Class Lib : Type := {
  marshal : jstruct -> string + string;      (* json.Marshal: bytes or a message *)
  url_Parse : string -> option string;       (* url.Parse: the complaint, if any *)
  decode_LoadResponse : string -> LoadResponse + string;
  decode_ExistsResponse : string -> ExistsResponse + string;
  decode_ListResponse : string -> ListResponse + string;
  decode_StatResponse : string -> StatResponse + string
}.

(** [time.RFC3339] *)
Definition RFC3339 : string := "2006-01-02T15:04:05Z07:00".

(** [time.Time] and its zero value [time.Time{}]. *)
Definition Time : Type := GoTime.Time.
Definition zeroTime : Time := GoTime.zero.

(** [time.Parse(layout, value)]. The adapter passes one layout,
    [time.RFC3339], and that is the layout modelled; a call with another
    one is outside the model and counts as rejected. *)
Definition parse_time (layout value : string) : option Time :=
  if String.eqb layout RFC3339 then GoTime.parse value else None.

Arguments parse_time : simpl never.

Section Calls.
Context {L : Lib}.

Definition json_Marshal (v : jstruct) : string + error :=
  match marshal v with
  | inl b => inl b
  | inr msg => inr (MarshalError msg)
  end.

(** [http.NewRequestWithContext]: the method [POST] is always accepted and
    the adapter never passes a nil context, so only the URL can be refused. *)
Definition NewRequestWithContext (ctx : Context) (method url body : string)
  : Request + error :=
  match url_Parse url with
  | Some msg => inr (RequestError msg)
  | None => inl {| Method := method; URL := url; Ctx := ctx;
                   Header := []; Body := body |}
  end.

Definition Decode {A : Type} (dec : string -> A + string) (body : string)
  : A + error :=
  match dec body with
  | inl v => inl v
  | inr msg => inr (DecodeError msg)
  end.

Definition time_Parse (layout value : string) : Time + error :=
  match parse_time layout value with
  | Some t => inl t
  | None => inr (ParseError layout value)
  end.

(** [certmagic.KeyInfo] *)
Record KeyInfo : Type := {
  Key : string;
  Modified : Time;
  Size : Z;
  IsTerminal : bool
}.

Definition KeyInfo_zero : KeyInfo :=
  {| Key := ""; Modified := zeroTime; Size := 0; IsTerminal := false |}.

End Calls.
End Go.

(* ------------------------------------------------------------------ *)
(** ** caddyfile.Dispenser *)

Module Caddyfile.

Record Token : Type := { File : string; Line : Z; Text : string }.

Record Dispenser : Type := { tokens : list Token; cursor : Z }.

Definition len (d : Dispenser) : Z := Z.of_nat (List.length (tokens d)).

Definition at_cursor (d : Dispenser) (i : Z) : Token :=
  nth (Z.to_nat i) (tokens d) {| File := ""; Line := 0; Text := "" |}.

Definition advance (d : Dispenser) : Dispenser :=
  {| tokens := tokens d; cursor := cursor d + 1 |}.

Definition retreat (d : Dispenser) : Dispenser :=
  {| tokens := tokens d; cursor := cursor d - 1 |}.

(** [d.Next()] *)
Definition Next (d : Dispenser) : Dispenser * bool :=
  if cursor d <? len d - 1 then (advance d, true) else (d, false).

(** [d.Val()] *)
Definition Val (d : Dispenser) : string :=
  if ((cursor d <? 0) || (cursor d >=? len d))%bool then ""
  else Text (at_cursor d (cursor d)).

Section Lines.
(** Whether the second token starts a new line after the first; the
    dispenser decides it from the tokens' files and line numbers. *)
Variable isNextOnNewLine : Token -> Token -> bool.

Definition nextOnSameLine (d : Dispenser) : Dispenser * bool :=
  if cursor d <? 0 then (advance d, true)
  else if cursor d >=? len d - 1 then (d, false)
  else if negb (isNextOnNewLine (at_cursor d (cursor d)) (at_cursor d (cursor d + 1)))
       then (advance d, true)
       else (d, false).

(** [d.NextArg()]: an opening brace is not an argument. *)
Definition NextArg (d : Dispenser) : Dispenser * bool :=
  let '(d1, ok) := nextOnSameLine d in
  if negb ok then (d1, false)
  else if String.eqb (Val d1) "{" then (retreat d1, false)
  else (d1, true).

(** [d.Args(&value)] with one target; [value] is what the target holds
    afterwards, given that it held [value0]. *)
Definition Args (d : Dispenser) (value0 : string) : Dispenser * string * bool :=
  let '(d1, ok) := NextArg d in
  if negb ok then (d1, value0, false) else (d1, Val d1, true).

End Lines.

(** Tokens not yet passed by the cursor. *)
Definition remaining (d : Dispenser) : nat := Z.to_nat (len d - 1 - cursor d).

End Caddyfile.

(* ------------------------------------------------------------------ *)
(** ** src/rest.go *)

Module Rest.
Import Http Go.

Record RestStorage : Type := {
  Endpoint : string;
  Token : string;
  client : option Client                     (* *http.Client *)
}.

(** [init]: the value handed to [caddy.RegisterModule]; it has a client. *)
Definition init : RestStorage :=
  {| Endpoint := ""; Token := ""; client := Some Client_zero |}.

(** [caddy.ModuleInfo], with [New] as what it returns. *)
Record ModuleInfo : Type := { ID : string; New : RestStorage }.

(** [CaddyModule]: the host makes its instances with [New], which returns
    [new(RestStorage)], the zero value: the client of an instance is nil.
    Nothing in the file sets it afterwards. *)
Definition CaddyModule (_ : RestStorage) : ModuleInfo :=
  {| ID := "caddy.storage.rest";
     New := {| Endpoint := ""; Token := ""; client := None |} |}.

Definition Validate (r : RestStorage) : option error :=
  if String.eqb (Endpoint r) "" then
    Some (errorString "endpoint must be specified")
  else if String.eqb (Token r) "" then
    Some (errorString "token must be specified")
  else None.

Section Unmarshal.
Variable isNextOnNewLine : Caddyfile.Token -> Caddyfile.Token -> bool.

(** The [switch key] of the loop body. *)
Definition assign (key value : string) (r : RestStorage) : RestStorage :=
  if String.eqb key "endpoint" then
    {| Endpoint := value; Token := Token r; client := client r |}
  else if String.eqb key "token" then
    {| Endpoint := Endpoint r; Token := value; client := client r |}
  else r.

(** One turn of [for d.Next() { ... }] after [d.Next()] returned true. *)
Definition turn (d : Caddyfile.Dispenser) (r : RestStorage) : Caddyfile.Dispenser * RestStorage :=
  let key := Caddyfile.Val d in
  let '(d1, value, ok) := Caddyfile.Args isNextOnNewLine d "" in
  if negb ok then (d1, r) else (d1, assign key value r).

Lemma Next_remaining (d d1 : Caddyfile.Dispenser) :
  Caddyfile.Next d = (d1, true) -> (Caddyfile.remaining d1 < Caddyfile.remaining d)%nat.
Proof.
  unfold Caddyfile.Next, Caddyfile.remaining, Caddyfile.len. destruct (Caddyfile.cursor d <? _) eqn:E; [|discriminate].
  intros [= <-]. apply Z.ltb_lt in E. cbn. unfold Caddyfile.len in E. lia.
Defined.

Lemma turn_remaining (d : Caddyfile.Dispenser) (r : RestStorage) :
  (Caddyfile.remaining (fst (turn d r)) <= Caddyfile.remaining d)%nat.
Proof.
  unfold turn, Caddyfile.Args, Caddyfile.NextArg, Caddyfile.nextOnSameLine, Caddyfile.remaining, Caddyfile.len.
  destruct (Caddyfile.cursor d <? 0) eqn:E0; cbn.
  - destruct (String.eqb _ "{"); cbn; lia.
  - destruct (Caddyfile.cursor d >=? _); cbn; [lia|].
    destruct (isNextOnNewLine _ _); cbn; [lia|].
    destruct (String.eqb _ "{"); cbn; lia.
Defined.

Definition inspect {A : Type} (a : A) : {b : A | a = b} := exist _ a eq_refl.

Equations? UnmarshalLoop (d : Caddyfile.Dispenser) (r : RestStorage)
  : Caddyfile.Dispenser * RestStorage by wf (Caddyfile.remaining d) lt :=
  UnmarshalLoop d r with inspect (Caddyfile.Next d) := {
    | exist _ (d1, true) e => UnmarshalLoop (fst (turn d1 r)) (snd (turn d1 r));
    | exist _ (d1, false) e => (d1, r) }.
Proof.
  pose proof (Next_remaining _ _ e). pose proof (turn_remaining d1 r). lia.
Defined.

(** The receiver after the call, the dispenser after the call and the
    returned error. *)
Definition UnmarshalCaddyfile (r : RestStorage) (d : Caddyfile.Dispenser)
  : RestStorage * Caddyfile.Dispenser * option error :=
  let '(d', r') := UnmarshalLoop d r in (r', d', None).

End Unmarshal.

Definition CertMagicStorage (r : RestStorage) : RestStorage * option error :=
  (r, None).

Definition LockRequest (Key Token : string) : jstruct :=
  [("key", JString Key); ("token", JString Token)].
Definition UnlockRequest (Key Token : string) : jstruct :=
  [("key", JString Key); ("token", JString Token)].
Definition StoreRequest (Key Value Token : string) : jstruct :=
  [("key", JString Key); ("value", JString Value); ("token", JString Token)].
Definition LoadRequest (Key Token : string) : jstruct :=
  [("key", JString Key); ("token", JString Token)].
Definition DeleteRequest (Key Token : string) : jstruct :=
  [("key", JString Key); ("token", JString Token)].
Definition ExistsRequest (Key Token : string) : jstruct :=
  [("key", JString Key); ("token", JString Token)].
Definition ListRequest (Prefix : string) (Recursive : bool) (Token : string)
  : jstruct :=
  [("prefix", JString Prefix); ("recursive", JBool Recursive);
   ("token", JString Token)].
Definition StatRequest (Key Token : string) : jstruct :=
  [("key", JString Key); ("token", JString Token)].

Definition unknown_status (code : Z) : error :=
  Fmt.Errorf "Unknown status code received: {}" [code].

Section Operations.
Context {L : Lib}.

Definition Lock (r : RestStorage) (ctx : Context) (key : string)
  : itree httpE (option error) :=
  match json_Marshal (LockRequest key (Token r)) with
  | inr err => Ret (Some err)
  | inl lockReq =>
      ITree.iter (fun _ : unit =>
        match NewRequestWithContext ctx "POST"
                (String.append (Endpoint r) "lock") lockReq with
        | inr err => Ret (inr (Some err))
        | inl req =>
            let req := Header_Add req "Content-Type" "application/json" in
            ITree.bind (ITree.trigger (Do (client r) req)) (fun out =>
              match out with
              | inr err => Ret (inr (Some (UrlError err)))
              | inl resp =>
                  if StatusCode resp =? 201 then Ret (inr None)
                  else if negb (StatusCode resp =? 412) then
                    Ret (inr (Some (unknown_status (StatusCode resp))))
                  else Ret (inl tt)
              end)
        end) tt
  end.

Definition Unlock (r : RestStorage) (ctx : Context) (key : string)
  : itree httpE (option error) :=
  match json_Marshal (UnlockRequest key (Token r)) with
  | inr err => Ret (Some err)
  | inl unlockReq =>
      match NewRequestWithContext ctx "POST"
              (String.append (Endpoint r) "unlock") unlockReq with
      | inr err => Ret (Some err)
      | inl req =>
          let req := Header_Add req "Content-Type" "application/json" in
          ITree.bind (ITree.trigger (Do (client r) req)) (fun out =>
            match out with
            | inr err => Ret (Some (UrlError err))
            | inl resp =>
                if negb (StatusCode resp =? 204) then
                  Ret (Some (unknown_status (StatusCode resp)))
                else Ret None
            end)
      end
  end.

Definition Store (r : RestStorage) (ctx : Context) (key : string)
           (value : list byte) : itree httpE (option error) :=
  let valueEnc := Base64.EncodeToString value in
  match json_Marshal (StoreRequest key valueEnc (Token r)) with
  | inr err => Ret (Some err)
  | inl storeReq =>
      match NewRequestWithContext ctx "POST"
              (String.append (Endpoint r) "store") storeReq with
      | inr err => Ret (Some err)
      | inl req =>
          let req := Header_Add req "Content-Type" "application/json" in
          ITree.bind (ITree.trigger (Do (client r) req)) (fun out =>
            match out with
            | inr err => Ret (Some (UrlError err))
            | inl resp =>
                if negb (StatusCode resp =? 201) then
                  Ret (Some (unknown_status (StatusCode resp)))
                else Ret None
            end)
      end
  end.

Definition Load (r : RestStorage) (ctx : Context) (key : string)
  : itree httpE (list byte * option error) :=
  match json_Marshal (LoadRequest key (Token r)) with
  | inr err => Ret ([], Some err)
  | inl loadReq =>
      match NewRequestWithContext ctx "POST"
              (String.append (Endpoint r) "load") loadReq with
      | inr err => Ret ([], Some err)
      | inl req =>
          let req := Header_Add req "Content-Type" "application/json" in
          ITree.bind (ITree.trigger (Do (client r) req)) (fun out =>
            match out with
            | inr err => Ret ([], Some (UrlError err))
            | inl resp =>
                if StatusCode resp =? 404 then Ret ([], Some ErrNotExist)
                else if negb (StatusCode resp =? 200) then
                  Ret ([], Some (unknown_status (StatusCode resp)))
                else
                  match Decode decode_LoadResponse (RespBody resp) with
                  | inr err => Ret ([], Some err)
                  | inl loadResp =>
                      match Base64.DecodeString (LoadResponse_Value loadResp) with
                      | (_, Some err) => Ret ([], Some err)
                      | (valueDec, None) => Ret (valueDec, None)
                      end
                  end
            end)
      end
  end.

Definition Delete (r : RestStorage) (ctx : Context) (key : string)
  : itree httpE (option error) :=
  match json_Marshal (DeleteRequest key (Token r)) with
  | inr err => Ret (Some err)
  | inl deleteReq =>
      match NewRequestWithContext ctx "POST"
              (String.append (Endpoint r) "delete") deleteReq with
      | inr err => Ret (Some err)
      | inl req =>
          let req := Header_Add req "Content-Type" "application/json" in
          ITree.bind (ITree.trigger (Do (client r) req)) (fun out =>
            match out with
            | inr err => Ret (Some (UrlError err))
            | inl resp =>
                if StatusCode resp =? 404 then Ret (Some ErrNotExist)
                else if negb (StatusCode resp =? 204) then
                  Ret (Some (unknown_status (StatusCode resp)))
                else Ret None
            end)
      end
  end.

Definition Exists (r : RestStorage) (ctx : Context) (key : string)
  : itree httpE bool :=
  match json_Marshal (ExistsRequest key (Token r)) with
  | inr err => Ret false
  | inl existsReq =>
      match NewRequestWithContext ctx "POST"
              (String.append (Endpoint r) "exists") existsReq with
      | inr err => Ret false
      | inl req =>
          let req := Header_Add req "Content-Type" "application/json" in
          ITree.bind (ITree.trigger (Do (client r) req)) (fun out =>
            match out with
            | inr err => Ret false
            | inl resp =>
                if negb (StatusCode resp =? 200) then Ret false
                else
                  match Decode decode_ExistsResponse (RespBody resp) with
                  | inr err => Ret false
                  | inl existsResp => Ret (ExistsResponse_Exists existsResp)
                  end
            end)
      end
  end.

Definition List (r : RestStorage) (ctx : Context) (prefix : string)
           (recursive : bool) : itree httpE (list string * option error) :=
  match json_Marshal (ListRequest prefix recursive (Token r)) with
  | inr err => Ret ([], Some err)
  | inl listReq =>
      match NewRequestWithContext ctx "POST"
              (String.append (Endpoint r) "list") listReq with
      | inr err => Ret ([], Some err)
      | inl req =>
          let req := Header_Add req "Content-Type" "application/json" in
          ITree.bind (ITree.trigger (Do (client r) req)) (fun out =>
            match out with
            | inr err => Ret ([], Some (UrlError err))
            | inl resp =>
                if StatusCode resp =? 404 then Ret ([], Some ErrNotExist)
                else if negb (StatusCode resp =? 200) then
                  Ret ([], Some (unknown_status (StatusCode resp)))
                else
                  match Decode decode_ListResponse (RespBody resp) with
                  | inr err => Ret ([], Some err)
                  | inl listResp => Ret (ListResponse_Keys listResp, None)
                  end
            end)
      end
  end.

Definition Stat (r : RestStorage) (ctx : Context) (key : string)
  : itree httpE (KeyInfo * option error) :=
  match json_Marshal (StatRequest key (Token r)) with
  | inr err => Ret (KeyInfo_zero, Some err)
  | inl statReq =>
      match NewRequestWithContext ctx "POST"
              (String.append (Endpoint r) "stat") statReq with
      | inr err => Ret (KeyInfo_zero, Some err)
      | inl req =>
          let req := Header_Add req "Content-Type" "application/json" in
          ITree.bind (ITree.trigger (Do (client r) req)) (fun out =>
            match out with
            | inr err => Ret (KeyInfo_zero, Some (UrlError err))
            | inl resp =>
                if StatusCode resp =? 404 then Ret (KeyInfo_zero, Some ErrNotExist)
                else if negb (StatusCode resp =? 200) then
                  Ret (KeyInfo_zero, Some (unknown_status (StatusCode resp)))
                else
                  match Decode decode_StatResponse (RespBody resp) with
                  | inr err => Ret (KeyInfo_zero, Some err)
                  | inl statResp =>
                      match time_Parse RFC3339 (StatResponse_Modified statResp) with
                      | inr err => Ret (KeyInfo_zero, Some err)
                      | inl parsedTime =>
                          Ret ({| Key := StatResponse_Key statResp;
                                  Modified := parsedTime;
                                  Size := StatResponse_Size statResp;
                                  IsTerminal := StatResponse_IsTerminal statResp |},
                               None)
                      end
                  end
            end)
      end
  end.

End Operations.

End Rest.

(** *** The storage capability set

    The host reaches the adapter through the [certmagic.Storage] interface;
    [call] names a method with its arguments and [reply] holds what the
    method returns. *)

Module Storage.
Import Http Go Rest.

Inductive call : Type :=
| CallLock (key : string)
| CallUnlock (key : string)
| CallStore (key : string) (value : list byte)
| CallLoad (key : string)
| CallDelete (key : string)
| CallExists (key : string)
| CallList (prefix : string) (recursive : bool)
| CallStat (key : string).

Section Dispatch.
Context {L : Lib}.

Inductive reply : Type :=
| Done (e : option error)
| Bytes (v : list byte) (e : option error)
| Bool (b : bool)
| Keys (l : list string) (e : option error)
| Info (i : KeyInfo) (e : option error).

Definition invoke (r : RestStorage) (ctx : Context) (c : call)
  : itree httpE reply :=
  match c with
  | CallLock key => ITree.map Done (Lock r ctx key)
  | CallUnlock key => ITree.map Done (Unlock r ctx key)
  | CallStore key value => ITree.map Done (Store r ctx key value)
  | CallLoad key => ITree.map (fun p => Bytes (fst p) (snd p)) (Load r ctx key)
  | CallDelete key => ITree.map Done (Delete r ctx key)
  | CallExists key => ITree.map Bool (Exists r ctx key)
  | CallList prefix recursive =>
      ITree.map (fun p => Keys (fst p) (snd p)) (List r ctx prefix recursive)
  | CallStat key => ITree.map (fun p => Info (fst p) (snd p)) (Stat r ctx key)
  end.

(** The error a reply carries; a boolean reply has no room for one. *)
Definition reply_error (rep : reply) : option error :=
  match rep with
  | Done e | Bytes _ e | Keys _ e | Info _ e => e
  | Bool _ => None
  end.

(** Whether the method has an error result at all. *)
Definition has_error_result (c : call) : bool :=
  match c with
  | CallExists _ => false
  | _ => true
  end.

End Dispatch.


End Storage.

(* ------------------------------------------------------------------ *)
(** ** src/unnamed/part_000: the revision before contexts

    The same adapter written against the storage interface without
    contexts: requests go through [http.Post], a 404 is not told apart and
    the error message carries no status code. [Validate] and
    [UnmarshalCaddyfile] are the same text as in [rest.go]. *)

Module Rest0.
Import Http Go.
Import Rest (LockRequest, UnlockRequest, StoreRequest, LoadRequest,
             DeleteRequest, ExistsRequest, ListRequest, StatRequest).

Record RestStorage : Type := {
  Endpoint : string;
  Token : string
}.

Section Operations.
Context {L : Lib}.

Definition Header_Set (req : Request) (key value : string) : Request :=
  {| Method := Method req; URL := URL req; Ctx := Ctx req;
     Header := filter (fun kv => negb (String.eqb (fst kv) key)) (Header req)
               ++ [(key, value)];
     Body := Body req |}.

(** [http.Post]: the request is built with [context.Background()] and
    sent by [http.DefaultClient]. *)
Definition http_Post (url contentType body : string)
  : itree httpE (Response + error) :=
  match NewRequestWithContext Background "POST" url body with
  | inr err => Ret (inr err)
  | inl req =>
      ITree.bind
        (ITree.trigger (Do (Some Client_zero)
                           (Header_Set req "Content-Type" contentType)))
        (fun out =>
           match out with
           | inl resp => Ret (inl resp)
           | inr err => Ret (inr (UrlError err))
           end)
  end.

Definition unknown_status : error :=
  errorString "Unknown status code received".

Definition Lock (r : RestStorage) (ctx : Context) (key : string)
  : itree httpE (option error) :=
  match json_Marshal (LockRequest key (Token r)) with
  | inr err => Ret (Some err)
  | inl lockReq =>
      ITree.iter (fun _ : unit =>
        ITree.bind
          (http_Post (String.append (Endpoint r) "lock") "application/json" lockReq)
          (fun out =>
             match out with
             | inr err => Ret (inr (Some err))
             | inl resp =>
                 if StatusCode resp =? 201 then Ret (inr None)
                 else if negb (StatusCode resp =? 412) then
                   Ret (inr (Some unknown_status))
                 else Ret (inl tt)
             end)) tt
  end.

Definition Unlock (r : RestStorage) (key : string) : itree httpE (option error) :=
  match json_Marshal (UnlockRequest key (Token r)) with
  | inr err => Ret (Some err)
  | inl unlockReq =>
      ITree.bind
        (http_Post (String.append (Endpoint r) "unlock") "application/json" unlockReq)
        (fun out =>
           match out with
           | inr err => Ret (Some err)
           | inl resp =>
               if negb (StatusCode resp =? 204) then Ret (Some unknown_status)
               else Ret None
           end)
  end.

Definition Store (r : RestStorage) (key : string) (value : list byte)
  : itree httpE (option error) :=
  let valueEnc := Base64.EncodeToString value in
  match json_Marshal (StoreRequest key valueEnc (Token r)) with
  | inr err => Ret (Some err)
  | inl storeReq =>
      ITree.bind
        (http_Post (String.append (Endpoint r) "store") "application/json" storeReq)
        (fun out =>
           match out with
           | inr err => Ret (Some err)
           | inl resp =>
               if negb (StatusCode resp =? 201) then Ret (Some unknown_status)
               else Ret None
           end)
  end.

Definition Load (r : RestStorage) (key : string)
  : itree httpE (list byte * option error) :=
  match json_Marshal (LoadRequest key (Token r)) with
  | inr err => Ret ([], Some err)
  | inl loadReq =>
      ITree.bind
        (http_Post (String.append (Endpoint r) "load") "application/json" loadReq)
        (fun out =>
           match out with
           | inr err => Ret ([], Some err)
           | inl resp =>
               if negb (StatusCode resp =? 200) then Ret ([], Some unknown_status)
               else
                 match Decode decode_LoadResponse (RespBody resp) with
                 | inr err => Ret ([], Some err)
                 | inl loadResp =>
                     match Base64.DecodeString (LoadResponse_Value loadResp) with
                     | (_, Some err) => Ret ([], Some err)
                     | (valueDec, None) => Ret (valueDec, None)
                     end
                 end
           end)
  end.

Definition Delete (r : RestStorage) (key : string) : itree httpE (option error) :=
  match json_Marshal (DeleteRequest key (Token r)) with
  | inr err => Ret (Some err)
  | inl deleteReq =>
      ITree.bind
        (http_Post (String.append (Endpoint r) "delete") "application/json" deleteReq)
        (fun out =>
           match out with
           | inr err => Ret (Some err)
           | inl resp =>
               if negb (StatusCode resp =? 204) then Ret (Some unknown_status)
               else Ret None
           end)
  end.

Definition Exists (r : RestStorage) (key : string) : itree httpE bool :=
  match json_Marshal (ExistsRequest key (Token r)) with
  | inr err => Ret false
  | inl existsReq =>
      ITree.bind
        (http_Post (String.append (Endpoint r) "exists") "application/json" existsReq)
        (fun out =>
           match out with
           | inr err => Ret false
           | inl resp =>
               if negb (StatusCode resp =? 200) then Ret false
               else
                 match Decode decode_ExistsResponse (RespBody resp) with
                 | inr err => Ret false
                 | inl existsResp => Ret (ExistsResponse_Exists existsResp)
                 end
           end)
  end.

Definition List (r : RestStorage) (prefix : string) (recursive : bool)
  : itree httpE (list string * option error) :=
  match json_Marshal (ListRequest prefix recursive (Token r)) with
  | inr err => Ret ([], Some err)
  | inl listReq =>
      ITree.bind
        (http_Post (String.append (Endpoint r) "list") "application/json" listReq)
        (fun out =>
           match out with
           | inr err => Ret ([], Some err)
           | inl resp =>
               if negb (StatusCode resp =? 200) then Ret ([], Some unknown_status)
               else
                 match Decode decode_ListResponse (RespBody resp) with
                 | inr err => Ret ([], Some err)
                 | inl listResp => Ret (ListResponse_Keys listResp, None)
                 end
           end)
  end.

Definition Stat (r : RestStorage) (key : string)
  : itree httpE (KeyInfo * option error) :=
  match json_Marshal (StatRequest key (Token r)) with
  | inr err => Ret (KeyInfo_zero, Some err)
  | inl statReq =>
      ITree.bind
        (http_Post (String.append (Endpoint r) "stat") "application/json" statReq)
        (fun out =>
           match out with
           | inr err => Ret (KeyInfo_zero, Some err)
           | inl resp =>
               if negb (StatusCode resp =? 200) then
                 Ret (KeyInfo_zero, Some unknown_status)
               else
                 match Decode decode_StatResponse (RespBody resp) with
                 | inr err => Ret (KeyInfo_zero, Some err)
                 | inl statResp =>
                     match time_Parse RFC3339 (StatResponse_Modified statResp) with
                     | inr err => Ret (KeyInfo_zero, Some err)
                     | inl parsedTime =>
                         Ret ({| Key := StatResponse_Key statResp;
                                 Modified := parsedTime;
                                 Size := StatResponse_Size statResp;
                                 IsTerminal := StatResponse_IsTerminal statResp |},
                              None)
                     end
                 end
           end)
  end.

(** The methods of this revision as the storage interface of its time:
    only [Lock] is handed a context. *)
Definition invoke (r : RestStorage) (ctx : Context) (c : Storage.call)
  : itree httpE Storage.reply :=
  match c with
  | Storage.CallLock key => ITree.map Storage.Done (Lock r ctx key)
  | Storage.CallUnlock key => ITree.map Storage.Done (Unlock r key)
  | Storage.CallStore key value => ITree.map Storage.Done (Store r key value)
  | Storage.CallLoad key =>
      ITree.map (fun p => Storage.Bytes (fst p) (snd p)) (Load r key)
  | Storage.CallDelete key => ITree.map Storage.Done (Delete r key)
  | Storage.CallExists key => ITree.map Storage.Bool (Exists r key)
  | Storage.CallList prefix recursive =>
      ITree.map (fun p => Storage.Keys (fst p) (snd p)) (List r prefix recursive)
  | Storage.CallStat key =>
      ITree.map (fun p => Storage.Info (fst p) (snd p)) (Stat r key)
  end.

End Operations.
End Rest0.

(* ------------------------------------------------------------------ *)
(** ** RFC 3339, section 5.6

    What the specification calls a valid date-time string, and the instant
    such a string denotes, to compare with what [time.Parse] reads. The
    grammar is taken with upper-case [T] and [Z] and without the leap
    second [60]: RFC 3339 allows both the lower-case letters and, at the
    end of a month, the second [60], and [time.Parse] reads neither. *)

Module RFC3339.
Import Text Calendar.

Notation "'do' x <- e ; k" :=
  (match e with Some x => k | None => None end)
  (at level 10, x pattern, e at level 100, k at level 200, only parsing).

(** An instant: seconds since 1970-01-01T00:00:00Z and nanoseconds. *)
Record instant : Type := { unix : Z; nsec : Z }.

(** Exactly [k] digits. *)
Fixpoint number (k : nat) (acc : Z) (s : string) : option (Z * string) :=
  match k with
  | O => Some (acc, s)
  | S k' =>
      match s with
      | String c rest =>
          match digit c with
          | Some d => number k' (10 * acc + d) rest
          | None => None
          end
      | EmptyString => None
      end
  end.

(** The character [c]. *)
Definition expect (c : ascii) (s : string) : option string :=
  match s with
  | String c' rest => if Ascii.eqb c c' then Some rest else None
  | EmptyString => None
  end.

(** [time-secfrac] after its point: the digits as nanoseconds; what
    lies beyond the ninth digit is below the resolution of an instant. *)
Fixpoint fraction (k : nat) (acc : Z) (s : string) : Z * string :=
  match s with
  | String c rest =>
      match digit c with
      | Some d =>
          match k with
          | O => fraction O acc rest
          | S k' => fraction k' (acc + d * 10 ^ Z.of_nat k') rest
          end
      | None => (acc, s)
      end
  | EmptyString => (acc, s)
  end.

(** [time-offset]: [Z], or [+hh:mm] / [-hh:mm] with the hour up to 23 and
    the minute up to 59, in seconds east of UTC; nothing may follow. *)
Definition zone (s : string) : option Z :=
  match s with
  | String "Z" EmptyString => Some 0
  | String sign rest =>
      if (Ascii.eqb sign "+" || Ascii.eqb sign "-")%bool then
        do (hh, s1) <- number 2 0 rest;
        do s2 <- expect ":" s1;
        do (mm, s3) <- number 2 0 s2;
        match s3 with
        | EmptyString =>
            if ((hh <=? 23) && (mm <=? 59))%bool then
              Some ((if Ascii.eqb sign "-" then -1 else 1) * (hh * 3600 + mm * 60))
            else None
        | _ => None
        end
      else None
  | EmptyString => None
  end.

(** [date-time]: [full-date "T" full-time], with the day within its
    month, the hour up to 23, minute and second up to 59. The instant is
    the civil time less the offset. *)
Definition instant_of (s : string) : option instant :=
  do (y, s) <- number 4 0 s;
  do s <- expect "-" s;
  do (m, s) <- number 2 0 s;
  do s <- expect "-" s;
  do (d, s) <- number 2 0 s;
  do s <- expect "T" s;
  do (hh, s) <- number 2 0 s;
  do s <- expect ":" s;
  do (mi, s) <- number 2 0 s;
  do s <- expect ":" s;
  do (ss, s) <- number 2 0 s;
  do (ns, s) <-
     match s with
     | String "." (String c rest) =>
         match digit c with
         | Some _ => Some (fraction 9 0 (String c rest))
         | None => None
         end
     | _ => Some (0, s)
     end;
  do off <- zone s;
  if ((1 <=? m) && (m <=? 12) && (1 <=? d) && (d <=? daysIn m y)
      && (hh <=? 23) && (mi <=? 59) && (ss <=? 59))%bool
  then Some {| unix := unix_of y m d hh mi ss - off; nsec := ns |}
  else None.

End RFC3339.

(* ------------------------------------------------------------------ *)
(** ** A simulated remote

    An implementation of [Lib], a scripted transport with a clock and a
    remote that keeps what it is sent, to run the operations on concrete
    inputs. *)

Module Sim.
Import Http Go.

Definition quote : ascii := "034"%char.
Definition q (s : string) : string :=
  String quote (String.append s (String quote EmptyString)).

Definition render_value (v : jvalue) : string :=
  match v with
  | JString s => q s
  | JBool true => "true"
  | JBool false => "false"
  end.

Fixpoint render_fields (v : jstruct) : string :=
  match v with
  | [] => EmptyString
  | [(k, x)] => String.append (q k) (String.append ":" (render_value x))
  | (k, x) :: v' =>
      String.append (q k)
        (String.append ":" (String.append (render_value x)
           (String.append "," (render_fields v'))))
  end.

Definition render (v : jstruct) : string :=
  String.append "{" (String.append (render_fields v) "}").

Definition sim_marshal (v : jstruct) : string + string := inl (render v).

Definition has_space (s : string) : bool :=
  existsb (fun c => Ascii.eqb c " ") (list_ascii_of_string s).

Definition sim_url_Parse (url : string) : option string :=
  if has_space url then Some "invalid character in host name" else None.

Definition bad : string := "invalid character looking for beginning of value".

Definition sim_decode_Load (body : string) : LoadResponse + string :=
  match Text.strip_prefix (String.append "{" (String.append (q "value") ":")) body with
  | Some (String c rest) =>
      if Ascii.eqb c quote then
        match Text.until quote rest with
        | Some (v, "}") => inl {| LoadResponse_Value := v |}
        | _ => inr bad
        end
      else inr bad
  | _ => inr bad
  end.

Definition sim_decode_Exists (body : string) : ExistsResponse + string :=
  match Text.strip_prefix (String.append "{" (String.append (q "exists") ":")) body with
  | Some "true}" => inl {| ExistsResponse_Exists := true |}
  | Some "false}" => inl {| ExistsResponse_Exists := false |}
  | _ => inr bad
  end.

(** Keys as a comma-separated list of quoted strings. *)
Fixpoint keys (fuel : nat) (s : string) : option (list string) :=
  match fuel with
  | O => None
  | S fuel' =>
      match s with
      | String c rest =>
          if Ascii.eqb c quote then
            match Text.until quote rest with
            | Some (k, "]}") => Some [k]
            | Some (k, String "," more) =>
                match keys fuel' more with
                | Some ks => Some (k :: ks)
                | None => None
                end
            | _ => None
            end
          else None
      | EmptyString => None
      end
  end.

Definition sim_decode_List (body : string) : ListResponse + string :=
  match Text.strip_prefix (String.append "{" (String.append (q "keys") ":[")) body with
  | Some "]}" => inl {| ListResponse_Keys := [] |}
  | Some rest =>
      match keys (String.length rest) rest with
      | Some ks => inl {| ListResponse_Keys := ks |}
      | None => inr bad
      end
  | None => inr bad
  end.

Definition sim_decode_Stat (body : string) : StatResponse + string :=
  match Text.strip_prefix (String.append "{" (String.append (q "key") ":")) body with
  | Some (String _ s) =>
    match Text.until quote s with
    | Some (k, s) =>
      match Text.strip_prefix (String.append "," (String.append (q "modified") ":")) s with
      | Some (String _ s) =>
        match Text.until quote s with
        | Some (m, s) =>
          match Text.strip_prefix (String.append "," (String.append (q "size") ":")) s with
          | Some s =>
            match Text.until "," s with
            | Some (n, s) =>
              match NilZero.int_of_string n,
                    Text.strip_prefix (String.append (q "isTerminal") ":") s with
              | Some size, Some "true}" =>
                  inl {| StatResponse_Key := k; StatResponse_Modified := m;
                         StatResponse_Size := Z.of_int size;
                         StatResponse_IsTerminal := true |}
              | Some size, Some "false}" =>
                  inl {| StatResponse_Key := k; StatResponse_Modified := m;
                         StatResponse_Size := Z.of_int size;
                         StatResponse_IsTerminal := false |}
              | _, _ => inr bad
              end
            | None => inr bad
            end
          | None => inr bad
          end
        | None => inr bad
        end
      | _ => inr bad
      end
    | None => inr bad
    end
  | _ => inr bad
  end.

#[export] Instance lib : Lib := {|
  marshal := sim_marshal;
  url_Parse := sim_url_Parse;
  decode_LoadResponse := sim_decode_Load;
  decode_ExistsResponse := sim_decode_Exists;
  decode_ListResponse := sim_decode_List;
  decode_StatResponse := sim_decode_Stat
|}.

(** The world of the simulated remote: a clock that advances by one tick
    with every call, the deadline of each caller context, and the answers
    the remote will give, in order. *)
Record World : Type := {
  now : Z;
  deadlines : list (nat * Z);
  script : list (Response + url_Error)
}.

Fixpoint deadline_of (id : nat) (l : list (nat * Z)) : option Z :=
  match l with
  | [] => None
  | (i, t) :: l' => if Nat.eqb i id then Some t else deadline_of id l'
  end.

(** [ctx.Err()] in a world. *)
Definition ctx_err (w : World) (ctx : Context) : option cause :=
  match ctx with
  | Background => None
  | Caller id =>
      match deadline_of id (deadlines w) with
      | Some t => if t <=? now w then Some DeadlineExceeded else None
      | None => None
      end
  end.

(** The world one tick later, with the same answers to give. *)
Definition tick (w : World) : World :=
  {| now := now w + 1; deadlines := deadlines w; script := script w |}.

(** A call takes one tick. The client fails it with the context's error
    when the context is done by the time the answer would be in, that is
    before the call or during it; the remote's answer is then not used. *)
Definition transport : Transport World := fun req w =>
  match ctx_err (tick w) (Ctx req) with
  | Some c => (inr {| Op := "Post"; Url := URL req; Err := c |}, tick w)
  | None =>
      match script w with
      | [] =>
          (inr {| Op := "Post"; Url := URL req; Err := NetError "connection refused" |},
           {| now := now w + 1; deadlines := deadlines w; script := [] |})
      | out :: rest =>
          (out, {| now := now w + 1; deadlines := deadlines w; script := rest |})
      end
  end.

Definition status (code : Z) (body : string) : Response + url_Error :=
  inl {| StatusCode := code; RespBody := body |}.

Definition world (answers : list (Response + url_Error)) : World :=
  {| now := 0; deadlines := []; script := answers |}.

(** Response bodies in the format the simulated decoders read. *)
Definition field (name value : string) : string :=
  String.append (q name) (String.append ":" value).

Definition load_body (value : string) : string :=
  String.append "{" (String.append (field "value" (q value)) "}").

Definition exists_body (b : bool) : string :=
  String.append "{"
    (String.append (field "exists" (if b then "true" else "false")) "}").

Definition stat_body (key modified size isTerminal : string) : string :=
  String.append "{"
    (String.append (field "key" (q key))
       (String.append ","
          (String.append (field "modified" (q modified))
             (String.append ","
                (String.append (field "size" size)
                   (String.append ","
                      (String.append (field "isTerminal" isTerminal) "}"))))))).

Definition store_body (key value token : string) : string :=
  String.append "{"
    (String.append (field "key" (q key))
       (String.append ","
          (String.append (field "value" (q value))
             (String.append "," (String.append (field "token" (q token)) "}"))))).

(** A storage with a client, as a caller inside the package can make it. *)
Definition r0 : Rest.RestStorage :=
  {| Rest.Endpoint := "https://kv.example/"; Rest.Token := "s3cret";
     Rest.client := Some Client_zero |}.

(** The same endpoint and token in the earlier revision. *)
Definition r0_before : Rest0.RestStorage :=
  {| Rest0.Endpoint := "https://kv.example/"; Rest0.Token := "s3cret" |}.

(** *** A remote that keeps what it is sent

    Its world is the table of the values stored, each the text of the
    [value] field under its key. [store] puts the field in the table and
    answers 201; [load] answers 200 with the text kept under the key, or
    404; anything else is answered 400. *)

Definition Table : Type := list (string * string).

Fixpoint kept (key : string) (t : Table) : option string :=
  match t with
  | [] => None
  | (k, v) :: t' => if String.eqb k key then Some v else kept key t'
  end.

(** The text of the string field [name] at the head of [s], and what
    follows it. *)
Definition string_field (name s : string) : option (string * string) :=
  match Text.strip_prefix (String.append (q name) (String ":" (String quote EmptyString))) s with
  | Some rest => Text.until quote rest
  | None => None
  end.

Definition bad_request : Response + url_Error := status 400 EmptyString.

Definition keeper : Transport Table := fun req t =>
  match Text.strip_prefix "{" (Body req) with
  | None => (bad_request, t)
  | Some fields =>
      match string_field "key" fields with
      | None => (bad_request, t)
      | Some (key, rest) =>
          if String.eqb (URL req) "https://kv.example/store" then
            match Text.strip_prefix "," rest with
            | None => (bad_request, t)
            | Some rest' =>
                match string_field "value" rest' with
                | Some (value, _) => (status 201 EmptyString, (key, value) :: t)
                | None => (bad_request, t)
                end
            end
          else if String.eqb (URL req) "https://kv.example/load" then
            match kept key t with
            | Some value => (status 200 (load_body value), t)
            | None => (status 404 EmptyString, t)
            end
          else (bad_request, t)
      end
  end.

End Sim.

(* ------------------------------------------------------------------ *)
(** ** The shape of a run

    Every operation builds one request, performs [Do] with it (once, or
    once per poll for [Lock]) and maps the outcome to what it returns. The
    definitions below spell out this reading; [RunShape] proves that the
    programs of [Rest] run exactly so. *)

Module Shape.
Import Http Go Rest.

Definition outcome : Type := Response + url_Error.

Section Replies.
Context {L : Lib}.

(** The request of the operation [name], or the error that stopped it from
    being built. *)
Definition request (r : RestStorage) (ctx : Context) (name : string)
           (payload : jstruct) : Request + error :=
  match json_Marshal payload with
  | inr err => inr err
  | inl body =>
      match NewRequestWithContext ctx "POST" (String.append (Endpoint r) name) body with
      | inr err => inr err
      | inl req => inl (Header_Add req "Content-Type" "application/json")
      end
  end.

(** How far a run gets: a storage without a client stops, in a panic,
    where its first call would be made. *)
Definition reach (r : RestStorage) (fuel : nat) : nat :=
  match client r with
  | Some _ => fuel
  | None => 0%nat
  end.

Definition steps (r : RestStorage) (built : Request + error) (fuel : nat) : nat :=
  match built with
  | inl _ => reach r fuel
  | inr _ => fuel
  end.

(** [inl tt]: poll again. *)
Definition Lock_reply (out : outcome) : unit + option error :=
  match out with
  | inr err => inr (Some (UrlError err))
  | inl resp =>
      if StatusCode resp =? 201 then inr None
      else if negb (StatusCode resp =? 412) then
        inr (Some (unknown_status (StatusCode resp)))
      else inl tt
  end.

Definition Unlock_reply (out : outcome) : option error :=
  match out with
  | inr err => Some (UrlError err)
  | inl resp =>
      if negb (StatusCode resp =? 204) then Some (unknown_status (StatusCode resp))
      else None
  end.

Definition Store_reply (out : outcome) : option error :=
  match out with
  | inr err => Some (UrlError err)
  | inl resp =>
      if negb (StatusCode resp =? 201) then Some (unknown_status (StatusCode resp))
      else None
  end.

Definition Load_reply (out : outcome) : list byte * option error :=
  match out with
  | inr err => ([], Some (UrlError err))
  | inl resp =>
      if StatusCode resp =? 404 then ([], Some ErrNotExist)
      else if negb (StatusCode resp =? 200) then
        ([], Some (unknown_status (StatusCode resp)))
      else
        match Decode decode_LoadResponse (RespBody resp) with
        | inr err => ([], Some err)
        | inl loadResp =>
            match Base64.DecodeString (LoadResponse_Value loadResp) with
            | (_, Some err) => ([], Some err)
            | (valueDec, None) => (valueDec, None)
            end
        end
  end.

Definition Delete_reply (out : outcome) : option error :=
  match out with
  | inr err => Some (UrlError err)
  | inl resp =>
      if StatusCode resp =? 404 then Some ErrNotExist
      else if negb (StatusCode resp =? 204) then
        Some (unknown_status (StatusCode resp))
      else None
  end.

Definition Exists_reply (out : outcome) : bool :=
  match out with
  | inr err => false
  | inl resp =>
      if negb (StatusCode resp =? 200) then false
      else
        match Decode decode_ExistsResponse (RespBody resp) with
        | inr err => false
        | inl existsResp => ExistsResponse_Exists existsResp
        end
  end.

Definition List_reply (out : outcome) : list string * option error :=
  match out with
  | inr err => ([], Some (UrlError err))
  | inl resp =>
      if StatusCode resp =? 404 then ([], Some ErrNotExist)
      else if negb (StatusCode resp =? 200) then
        ([], Some (unknown_status (StatusCode resp)))
      else
        match Decode decode_ListResponse (RespBody resp) with
        | inr err => ([], Some err)
        | inl listResp => (ListResponse_Keys listResp, None)
        end
  end.

Definition Stat_reply (out : outcome) : KeyInfo * option error :=
  match out with
  | inr err => (KeyInfo_zero, Some (UrlError err))
  | inl resp =>
      if StatusCode resp =? 404 then (KeyInfo_zero, Some ErrNotExist)
      else if negb (StatusCode resp =? 200) then
        (KeyInfo_zero, Some (unknown_status (StatusCode resp)))
      else
        match Decode decode_StatResponse (RespBody resp) with
        | inr err => (KeyInfo_zero, Some err)
        | inl statResp =>
            match time_Parse RFC3339 (StatResponse_Modified statResp) with
            | inr err => (KeyInfo_zero, Some err)
            | inl parsedTime =>
                ({| Key := StatResponse_Key statResp;
                    Modified := parsedTime;
                    Size := StatResponse_Size statResp;
                    IsTerminal := StatResponse_IsTerminal statResp |}, None)
            end
        end
  end.

End Replies.

Section Runs.
Variable W : Type.
Variable tr : Transport W.

(** The run of an operation that makes one call: nothing with no fuel; the
    failure to build the request; else the exchange and, with fuel left to
    return, the reply. *)
Definition shot {R : Type} (fuel : nat) (w : W) (built : Request + error)
           (fail : error -> R) (reply : outcome -> R)
  : option R * W * list (Exchange W) :=
  match fuel with
  | O => (None, w, [])
  | S fuel' =>
      match built with
      | inr err => (Some (fail err), w, [])
      | inl req =>
          let '(out, w1) := tr req w in
          (match fuel' with O => None | S _ => Some (reply out) end,
           w1, [{| before := w; sent := req; got := out |}])
      end
  end.

(** The run of a polling loop: a call, then either the return or, one
    step later, the next poll. *)
Fixpoint polls {R : Type} (reply : outcome -> unit + R) (fuel : nat) (w : W)
         (req : Request) : option R * W * list (Exchange W) :=
  match fuel with
  | O => (None, w, [])
  | S f =>
      let '(out, w1) := tr req w in
      let x := {| before := w; sent := req; got := out |} in
      match f with
      | O => (None, w1, [x])
      | S f' =>
          match reply out with
          | inr res => (Some res, w1, [x])
          | inl _ =>
              let '(r, w2, log) := polls reply f' w1 req in (r, w2, x :: log)
          end
      end
  end.

End Runs.

(** The same reading for a call through the storage interface. *)
Section Calls.
Import Storage.
Context {L : Lib}.

Definition op_name (c : call) : string :=
  match c with
  | CallLock _ => "lock"
  | CallUnlock _ => "unlock"
  | CallStore _ _ => "store"
  | CallLoad _ => "load"
  | CallDelete _ => "delete"
  | CallExists _ => "exists"
  | CallList _ _ => "list"
  | CallStat _ => "stat"
  end.

Definition payload (r : RestStorage) (c : call) : jstruct :=
  match c with
  | CallLock key => LockRequest key (Token r)
  | CallUnlock key => UnlockRequest key (Token r)
  | CallStore key value =>
      StoreRequest key (Base64.EncodeToString value) (Token r)
  | CallLoad key => LoadRequest key (Token r)
  | CallDelete key => DeleteRequest key (Token r)
  | CallExists key => ExistsRequest key (Token r)
  | CallList prefix recursive => ListRequest prefix recursive (Token r)
  | CallStat key => StatRequest key (Token r)
  end.

(** What the method returns when its request cannot be built. *)
Definition failure (c : call) (err : error) : reply :=
  match c with
  | CallLock _ | CallUnlock _ | CallStore _ _ | CallDelete _ => Done (Some err)
  | CallLoad _ => Bytes [] (Some err)
  | CallExists _ => Bool false
  | CallList _ _ => Keys [] (Some err)
  | CallStat _ => Info KeyInfo_zero (Some err)
  end.

(** What the method makes of the outcome of a call: [inl tt] to poll
    again, else its reply. *)
Definition answer (c : call) (out : outcome) : unit + reply :=
  match c with
  | CallLock _ =>
      match Lock_reply out with
      | inl u => inl u
      | inr e => inr (Done e)
      end
  | CallUnlock _ => inr (Done (Unlock_reply out))
  | CallStore _ _ => inr (Done (Store_reply out))
  | CallLoad _ => inr (Bytes (fst (Load_reply out)) (snd (Load_reply out)))
  | CallDelete _ => inr (Done (Delete_reply out))
  | CallExists _ => inr (Bool (Exists_reply out))
  | CallList _ _ => inr (Keys (fst (List_reply out)) (snd (List_reply out)))
  | CallStat _ => inr (Info (fst (Stat_reply out)) (snd (Stat_reply out)))
  end.

End Calls.
End Shape.

(* ================================================================== *)
(** * Properties *)

(** ** base64: decoding undoes encoding *)

Example b64_hello :
  Base64.EncodeToString [x68; x65; x6c; x6c; x6f] = "aGVsbG8=".
Proof. reflexivity. Qed.

Example b64_hello_back :
  Base64.DecodeString "aGVsbG8=" = ([x68; x65; x6c; x6c; x6f], None).
Proof. reflexivity. Qed.

Example b64_high_bytes :
  Base64.EncodeToString [xff; xfe] = "//4=" /\
  Base64.DecodeString "//4=" = ([xff; xfe], None) /\
  Base64.DecodeString "/w==" = ([xff], None) /\
  Base64.DecodeString (String.append "aGVs" (String Base64.NL "bG8=")) = ([x68; x65; x6c; x6c; x6f], None) /\
  Base64.DecodeString "aGVsbG8" = ([x68; x65; x6c], Some (CorruptInputError 4)) /\
  Base64.DecodeString "a$Vs" = ([], Some (CorruptInputError 1)).
Proof. repeat split; reflexivity. Qed.

Module Base64Facts.
Import Base64.

Lemma decodeMap_encode_nat (n : nat) :
  (n < 64)%nat -> decodeMap (encode (Z.of_nat n)) = Z.of_nat n.
Proof.
  intros H. do 64 (destruct n as [|n]; [reflexivity|]). lia.
Qed.

Lemma decodeMap_encode (i : Z) : 0 <= i < 64 -> decodeMap (encode i) = i.
Proof.
  intros H. rewrite <- (Z2Nat.id i) by lia. apply decodeMap_encode_nat. lia.
Qed.

Lemma encode_not_newline (i : Z) :
  0 <= i < 64 -> (decodeMap (encode i) =? 255) = false.
Proof. intros H. rewrite decodeMap_encode by lia. apply Z.eqb_neq. lia. Qed.

Lemma uint_range (b : byte) : 0 <= uint b < 256.
Proof. unfold uint. pose proof (Byte.to_N_bounded b). lia. Qed.

Lemma to_byte_uint (b : byte) : to_byte (uint b) = b.
Proof.
  unfold to_byte. pose proof (uint_range b) as H.
  change 255 with (Z.ones 8). rewrite Z.land_ones by lia.
  rewrite Z.mod_small by (change (2 ^ 8) with 256; lia).
  unfold uint. rewrite N2Z.id, Byte.of_to_N. reflexivity.
Qed.

Lemma to_byte_mod (x : Z) : to_byte x = to_byte (x mod 256).
Proof.
  unfold to_byte. change 255 with (Z.ones 8). rewrite !Z.land_ones by lia.
  change (2 ^ 8) with 256. rewrite Z.mod_mod by lia. reflexivity.
Qed.

Lemma lor_disjoint (a y n : Z) :
  0 <= n -> 0 <= y < 2 ^ n -> Z.lor (a * 2 ^ n) y = a * 2 ^ n + y.
Proof.
  intros Hn Hy. rewrite <- Z.add_lor_land.
  assert (E : Z.land (a * 2 ^ n) y = 0).
  { apply Z.bits_inj'. intros i Hi. rewrite Z.land_spec, Z.bits_0.
    destruct (Z.lt_ge_cases i n) as [L|G].
    - rewrite Z.mul_pow2_bits_low by lia. reflexivity.
    - destruct (Z.eq_dec y 0) as [->|Hy0]; [rewrite Z.bits_0; apply andb_false_r|].
      rewrite (Z.bits_above_log2 y i); [apply andb_false_r|lia|].
      apply Z.log2_lt_pow2; [lia|].
      apply Z.lt_le_trans with (2 ^ n); [lia|]. apply Z.pow_le_mono_r; lia. }
  rewrite E. lia.
Qed.

Lemma sextet (x k : Z) : 0 <= k -> Z.land (Z.shiftr x k) 63 = (x / 2 ^ k) mod 64.
Proof.
  intros Hk. change 63 with (Z.ones 6). rewrite Z.land_ones by lia.
  rewrite Z.shiftr_div_pow2 by lia. reflexivity.
Qed.

Lemma pack3 (x0 x1 x2 : Z) :
  0 <= x1 < 256 -> 0 <= x2 < 256 ->
  Z.lor (Z.lor (Z.shiftl x0 16) (Z.shiftl x1 8)) x2 = x0 * 65536 + x1 * 256 + x2.
Proof.
  intros H1 H2. rewrite !Z.shiftl_mul_pow2 by lia.
  rewrite (lor_disjoint x0 (x1 * 2 ^ 8) 16) by lia.
  replace (x0 * 2 ^ 16 + x1 * 2 ^ 8) with ((x0 * 256 + x1) * 2 ^ 8) by lia.
  rewrite lor_disjoint by lia. lia.
Qed.

Lemma pack2 (x0 x1 : Z) :
  0 <= x1 < 256 ->
  Z.lor (Z.shiftl x0 16) (Z.shiftl x1 8) = x0 * 65536 + x1 * 256.
Proof.
  intros H1. rewrite !Z.shiftl_mul_pow2 by lia.
  rewrite (lor_disjoint x0 (x1 * 2 ^ 8) 16) by lia. lia.
Qed.

Lemma pack4 (s0 s1 s2 s3 : Z) :
  0 <= s1 < 64 -> 0 <= s2 < 64 -> 0 <= s3 < 64 ->
  Z.lor (Z.lor (Z.lor (Z.shiftl s0 18) (Z.shiftl s1 12)) (Z.shiftl s2 6)) s3
  = s0 * 262144 + s1 * 4096 + s2 * 64 + s3.
Proof.
  intros H1 H2 H3. rewrite !Z.shiftl_mul_pow2 by lia.
  rewrite (lor_disjoint s0 (s1 * 2 ^ 12) 18) by lia.
  replace (s0 * 2 ^ 18 + s1 * 2 ^ 12) with ((s0 * 64 + s1) * 2 ^ 12) by lia.
  rewrite (lor_disjoint _ (s2 * 2 ^ 6) 12) by lia.
  replace ((s0 * 64 + s1) * 2 ^ 12 + s2 * 2 ^ 6)
    with (((s0 * 64 + s1) * 64 + s2) * 2 ^ 6) by lia.
  rewrite lor_disjoint by lia. lia.
Qed.

(** The four 6-bit digits of a 24-bit value put it together again. *)
Lemma sextets_sum (v : Z) :
  0 <= v < 16777216 ->
  (v / 2 ^ 18) mod 64 * 262144 + (v / 2 ^ 12) mod 64 * 4096
  + (v / 2 ^ 6) mod 64 * 64 + (v / 2 ^ 0) mod 64 = v.
Proof.
  intros H. change (2 ^ 18) with 262144. change (2 ^ 12) with 4096.
  change (2 ^ 6) with 64. change (2 ^ 0) with 1.
  Z.to_euclidean_division_equations. lia.
Qed.

Lemma quantum3 (b0 b1 b2 : byte) :
  let val := Z.lor (Z.lor (Z.shiftl (uint b0) 16) (Z.shiftl (uint b1) 8)) (uint b2) in
  quantum [Z.land (Z.shiftr val 18) 63; Z.land (Z.shiftr val 12) 63;
           Z.land (Z.shiftr val 6) 63; Z.land val 63] 4 = [b0; b1; b2].
Proof.
  intros val. subst val.
  pose proof (uint_range b0) as R0. pose proof (uint_range b1) as R1.
  pose proof (uint_range b2) as R2.
  rewrite pack3 by assumption.
  set (v := uint b0 * 65536 + uint b1 * 256 + uint b2).
  assert (Hv : 0 <= v < 16777216) by (subst v; lia).
  rewrite <- (Z.shiftr_0_r v) at 4.
  rewrite !sextet by lia.
  unfold quantum. cbn [nth Nat.sub firstn].
  rewrite pack4 by (apply Z.mod_pos_bound; lia).
  rewrite sextets_sum by assumption.
  rewrite !Z.shiftr_div_pow2 by lia.
  change (2 ^ 16) with 65536. change (2 ^ 8) with 256. change (2 ^ 0) with 1.
  rewrite (to_byte_mod (v / 256)), (to_byte_mod (v / 1)).
  replace (v / 65536) with (uint b0)
    by (subst v; Z.to_euclidean_division_equations; lia).
  replace ((v / 256) mod 256) with (uint b1)
    by (subst v; Z.to_euclidean_division_equations; lia).
  replace ((v / 1) mod 256) with (uint b2)
    by (subst v; Z.to_euclidean_division_equations; lia).
  rewrite !to_byte_uint. reflexivity.
Qed.

Lemma quantum2 (b0 b1 : byte) :
  let val := Z.lor (Z.shiftl (uint b0) 16) (Z.shiftl (uint b1) 8) in
  quantum [Z.land (Z.shiftr val 18) 63; Z.land (Z.shiftr val 12) 63;
           Z.land (Z.shiftr val 6) 63] 3 = [b0; b1].
Proof.
  intros val. subst val.
  pose proof (uint_range b0) as R0. pose proof (uint_range b1) as R1.
  rewrite pack2 by assumption.
  set (v := uint b0 * 65536 + uint b1 * 256).
  assert (Hv : 0 <= v < 16777216) by (subst v; lia).
  rewrite !sextet by lia.
  unfold quantum. cbn [nth Nat.sub firstn].
  rewrite pack4 by (try apply Z.mod_pos_bound; lia).
  replace ((v / 2 ^ 18) mod 64 * 262144 + (v / 2 ^ 12) mod 64 * 4096
           + (v / 2 ^ 6) mod 64 * 64 + 0) with v.
  2:{ rewrite <- (sextets_sum v Hv) at 1.
      replace ((v / 2 ^ 0) mod 64) with 0; [reflexivity|].
      subst v. change (2 ^ 0) with 1. Z.to_euclidean_division_equations. lia. }
  rewrite !Z.shiftr_div_pow2 by lia.
  change (2 ^ 16) with 65536. change (2 ^ 8) with 256.
  rewrite (to_byte_mod (v / 256)).
  replace (v / 65536) with (uint b0)
    by (subst v; Z.to_euclidean_division_equations; lia).
  replace ((v / 256) mod 256) with (uint b1)
    by (subst v; Z.to_euclidean_division_equations; lia).
  rewrite !to_byte_uint. reflexivity.
Qed.

Lemma quantum1 (b0 : byte) :
  let val := Z.shiftl (uint b0) 16 in
  quantum [Z.land (Z.shiftr val 18) 63; Z.land (Z.shiftr val 12) 63] 2 = [b0].
Proof.
  intros val. subst val.
  pose proof (uint_range b0) as R0.
  rewrite Z.shiftl_mul_pow2 by lia. change (2 ^ 16) with 65536.
  set (v := uint b0 * 65536).
  assert (Hv : 0 <= v < 16777216) by (subst v; lia).
  rewrite !sextet by lia.
  unfold quantum. cbn [nth Nat.sub firstn].
  rewrite pack4 by (try apply Z.mod_pos_bound; lia).
  replace ((v / 2 ^ 18) mod 64 * 262144 + (v / 2 ^ 12) mod 64 * 4096
           + 0 * 64 + 0) with v.
  2:{ rewrite <- (sextets_sum v Hv) at 1.
      replace ((v / 2 ^ 0) mod 64) with 0
        by (subst v; change (2 ^ 0) with 1; Z.to_euclidean_division_equations; lia).
      replace ((v / 2 ^ 6) mod 64) with 0
        by (subst v; change (2 ^ 6) with 64; Z.to_euclidean_division_equations; lia).
      reflexivity. }
  rewrite !Z.shiftr_div_pow2 by lia. change (2 ^ 16) with 65536.
  replace (v / 65536) with (uint b0)
    by (subst v; Z.to_euclidean_division_equations; lia).
  rewrite to_byte_uint. reflexivity.
Qed.

(** One character of the alphabet read by [decode]. *)
Lemma decode_digit (j : nat) (dbuf : list Z) (si i : Z) (rest : string)
      (dst : list byte) :
  0 <= i < 64 ->
  decode j dbuf si (String (encode i) rest) dst =
  match j with
  | 3%nat => decode 0 [] (si + 1) rest (dst ++ quantum (dbuf ++ [i]) 4)
  | _ => decode (S j) (dbuf ++ [i]) (si + 1) rest dst
  end.
Proof.
  intros H. cbn [decode]. cbv zeta.
  rewrite decodeMap_encode by assumption.
  replace (i =? 255) with false by (symmetry; apply Z.eqb_neq; lia).
  reflexivity.
Qed.

Lemma sextet_range (x k : Z) : 0 <= Z.land (Z.shiftr x k) 63 < 64.
Proof.
  change 63 with (Z.ones 6). rewrite Z.land_ones by lia.
  apply Z.mod_pos_bound. lia.
Qed.

Lemma sextet_range0 (x : Z) : 0 <= Z.land x 63 < 64.
Proof. rewrite <- (Z.shiftr_0_r x). apply sextet_range. Qed.

Lemma list_ind3 (A : Type) (P : list A -> Prop) :
  P [] -> (forall a, P [a]) -> (forall a b, P [a; b]) ->
  (forall a b c l, P l -> P (a :: b :: c :: l)) ->
  forall l, P l.
Proof.
  intros H0 H1 H2 H3 l.
  assert (G : P l /\ (forall a, P (a :: l)) /\ (forall a b, P (a :: b :: l))).
  { induction l as [|x l IH].
    - auto.
    - destruct IH as (I0 & I1 & I2). repeat split; auto. }
  apply G.
Qed.

Lemma decode_EncodeToString (src : list byte) :
  forall si dst, decode 0 [] si (EncodeToString src) dst = (dst ++ src, None).
Proof.
  induction src as [|b0|b0 b1|b0 b1 b2 rest IH] using list_ind3; intros si dst.
  - cbn. rewrite app_nil_r. reflexivity.
  - cbn [EncodeToString]. cbv zeta.
    rewrite !decode_digit by apply sextet_range. cbn [app].
    pose proof (quantum1 b0) as Q. cbv zeta in Q.
    transitivity (dst ++ quantum
       [Z.land (Z.shiftr (Z.shiftl (uint b0) 16) 18) 63;
        Z.land (Z.shiftr (Z.shiftl (uint b0) 16) 12) 63] 2, @None error).
    + reflexivity.
    + rewrite Q. reflexivity.
  - cbn [EncodeToString]. cbv zeta.
    rewrite !decode_digit by apply sextet_range. cbn [app].
    pose proof (quantum2 b0 b1) as Q. cbv zeta in Q.
    rewrite <- Q. reflexivity.
  - cbn [EncodeToString]. cbv zeta.
    rewrite !decode_digit by (apply sextet_range || apply sextet_range0).
    cbn [app]. rewrite IH.
    pose proof (quantum3 b0 b1 b2) as Q. cbv zeta in Q. rewrite Q.
    rewrite <- app_assoc. reflexivity.
Qed.

Theorem roundtrip (src : list byte) :
  DecodeString (EncodeToString src) = (src, None).
Proof. unfold DecodeString. apply decode_EncodeToString. Qed.
End Base64Facts.

(** ** Running programs against a transport *)

Module RunFacts.
Import Http.

Section Run.
Variable W : Type.
Variable tr : Transport W.

(** [run] looks at a program through [observe] only. *)
Lemma run_observe (R : Type) (fuel : nat) (t1 t2 : itree httpE R) (w : W) :
  observe t1 = observe t2 -> run tr fuel t1 w = run tr fuel t2 w.
Proof. intros H. destruct fuel as [|fuel]; cbn; [|rewrite H]; reflexivity. Qed.

Lemma run_Ret (R : Type) (fuel : nat) (r : R) (w : W) :
  run tr (S fuel) (Ret r) w = (Some r, w, []).
Proof. reflexivity. Qed.

Lemma run_bind_Ret (A R : Type) (fuel : nat) (a : A) (k : A -> itree httpE R)
      (w : W) :
  run tr fuel (ITree.bind (Ret a) k) w = run tr fuel (k a) w.
Proof. apply run_observe. reflexivity. Qed.

(** A program that starts with [Do]: the exchange is logged and the rest
    runs in the world the transport left. *)
Lemma run_Do (R : Type) (fuel : nat) (cl : Client) (req : Request)
      (k : Response + url_Error -> itree httpE R) (w : W) :
  run tr (S fuel) (ITree.bind (ITree.trigger (Do (Some cl) req)) k) w =
  let '(out, w1) := tr req w in
  let '(r, w2, log) := run tr fuel (k out) w1 in
  (r, w2, {| before := w; sent := req; got := out |} :: log).
Proof.
  transitivity (run tr (S fuel)
                  (Vis (Do (Some cl) req) (fun x => ITree.bind (Ret x) k)) w).
  { apply run_observe. reflexivity. }
  cbn -[ITree.bind]. destruct (tr req w) as [out w1].
  rewrite run_bind_Ret. reflexivity.
Qed.

(** [Do] on a nil client: the program stops there, in a panic. *)
Lemma run_Do_nil (R : Type) (fuel : nat) (req : Request)
      (k : Response + url_Error -> itree httpE R) (w : W) :
  run tr fuel (ITree.bind (ITree.trigger (Do None req)) k) w = (None, w, []).
Proof. destruct fuel; reflexivity. Qed.

Lemma panics_Do_nil (R : Type) (fuel : nat) (req : Request)
      (k : Response + url_Error -> itree httpE R) (w : W) :
  panics tr (S fuel) (ITree.bind (ITree.trigger (Do None req)) k) w = true.
Proof. reflexivity. Qed.

Lemma panics_map (A B : Type) (g : A -> B) (fuel : nat) :
  forall (t : itree httpE A) (w : W),
    panics tr fuel (ITree.map g t) w = panics tr fuel t w.
Proof.
  induction fuel as [|fuel IH]; intros t w; [reflexivity|].
  cbn -[ITree.map]. unfold ITree.map at 1. rewrite observe_bind.
  destruct (observe t) as [r|t'|X e k]; cbn -[ITree.map].
  - reflexivity.
  - apply IH.
  - destruct e as [[cl|] req]; [|reflexivity].
    destruct (tr req w) as [out w1]. apply IH.
Qed.

(** A program that returns does not panic, and one that panics never
    returns. *)
Lemma panics_no_result (R : Type) (fuel : nat) :
  forall (t : itree httpE R) (w : W),
    panics tr fuel t w = true ->
    forall fuel', fst (fst (run tr fuel' t w)) = None.
Proof.
  induction fuel as [|fuel IH]; intros t w H fuel'; [discriminate|].
  destruct fuel' as [|fuel']; [reflexivity|].
  cbn in H. cbn. destruct (observe t) as [r|t'|X e k]; [discriminate| |].
  - apply IH. exact H.
  - destruct e as [[cl|] req]; [|reflexivity].
    destruct (tr req w) as [out w1].
    specialize (IH _ _ H fuel').
    destruct (run tr fuel' (k out) w1) as [[r1 w2] log1]. exact IH.
Qed.

(** Mapping the result of a program changes neither its exchanges nor the
    fuel it needs. *)
Lemma run_map (A B : Type) (g : A -> B) (fuel : nat) :
  forall (t : itree httpE A) (w : W),
    run tr fuel (ITree.map g t) w =
    let '(r, w', log) := run tr fuel t w in (option_map g r, w', log).
Proof.
  induction fuel as [|fuel IH]; intros t w; [reflexivity|].
  cbn -[ITree.map]. unfold ITree.map at 1. rewrite observe_bind.
  destruct (observe t) as [r|t'|X e k]; cbn -[ITree.map].
  - reflexivity.
  - apply IH.
  - destruct e as [[cl|] req]; [|reflexivity].
    destruct (tr req w) as [out w1].
    specialize (IH (k out) w1). unfold ITree.map in IH. rewrite IH.
    destruct (run tr fuel (k out) w1) as [[r w2] log]. reflexivity.
Qed.

(** More fuel does not change a finished run. *)
Lemma run_more (R : Type) (fuel : nat) :
  forall (t : itree httpE R) (w w' : W) (r : R) (log : list (Exchange W)),
    run tr fuel t w = (Some r, w', log) ->
    run tr (S fuel) t w = (Some r, w', log).
Proof.
  induction fuel as [|fuel IH]; intros t w w' r log H; [discriminate|].
  cbn in H. cbn. destruct (observe t) as [r0|t'|X e k].
  - exact H.
  - apply IH in H. exact H.
  - destruct e as [[cl|] req]; [|discriminate].
    destruct (tr req w) as [out w1].
    destruct (run tr fuel (k out) w1) as [[r1 w2] log1] eqn:E.
    injection H as -> -> <-.
    apply IH in E. cbn in E. rewrite E. reflexivity.
Qed.

End Run.
End RunFacts.

(** ** The programs of [Rest] run as [Shape] says *)

Module RunShape.
Import Http Go Rest Shape RunFacts.

Ltac branches :=
  repeat (match goal with
          | |- context [if ?b then _ else _] => destruct b
          | |- context [match ?x with inl _ => _ | inr _ => _ end] => destruct x
          | |- context [Base64.DecodeString ?x] =>
              destruct (Base64.DecodeString x) as [? [?|]]
          end; cbn -[Base64.DecodeString unknown_status]).

Ltac one_call fuel :=
  unfold shot, steps, reach, request;
  destruct (json_Marshal _); [|destruct fuel; reflexivity];
  destruct (NewRequestWithContext _ _ _ _); [|destruct fuel; reflexivity];
  cbv zeta;
  destruct (client _); [|apply run_Do_nil];
  destruct fuel as [|fuel]; [reflexivity|];
  rewrite run_Do;
  let out := fresh "out" in
  let w1 := fresh "w" in
  match goal with |- context [let '(_, _) := ?tr ?req ?w in _] =>
    destruct (tr req w) as [out w1] end;
  destruct fuel as [|fuel]; [reflexivity|];
  destruct out as [? | ?]; cbn -[Base64.DecodeString unknown_status];
  branches; reflexivity.

Section Programs.
Context {L : Lib}.
Variable W : Type.
Variable tr : Transport W.
Variables (r : RestStorage) (ctx : Context).

Lemma Unlock_run (key : string) (fuel : nat) (w : W) :
  run tr fuel (Unlock r ctx key) w =
  shot W tr
       (steps r (request r ctx "unlock" (UnlockRequest key (Token r))) fuel) w
       (request r ctx "unlock" (UnlockRequest key (Token r)))
       Some Unlock_reply.
Proof. unfold Unlock, Unlock_reply. one_call fuel. Qed.

Lemma Store_run (key : string) (value : list byte) (fuel : nat) (w : W) :
  run tr fuel (Store r ctx key value) w =
  shot W tr
       (steps r (request r ctx "store"
                (StoreRequest key (Base64.EncodeToString value) (Token r))) fuel) w
       (request r ctx "store"
                (StoreRequest key (Base64.EncodeToString value) (Token r)))
       Some Store_reply.
Proof. unfold Store, Store_reply. cbv zeta. one_call fuel. Qed.

Lemma Load_run (key : string) (fuel : nat) (w : W) :
  run tr fuel (Load r ctx key) w =
  shot W tr
       (steps r (request r ctx "load" (LoadRequest key (Token r))) fuel) w
       (request r ctx "load" (LoadRequest key (Token r)))
       (fun err => ([], Some err)) Load_reply.
Proof. unfold Load, Load_reply. one_call fuel. Qed.

Lemma Delete_run (key : string) (fuel : nat) (w : W) :
  run tr fuel (Delete r ctx key) w =
  shot W tr
       (steps r (request r ctx "delete" (DeleteRequest key (Token r))) fuel) w
       (request r ctx "delete" (DeleteRequest key (Token r)))
       Some Delete_reply.
Proof. unfold Delete, Delete_reply. one_call fuel. Qed.

Lemma Exists_run (key : string) (fuel : nat) (w : W) :
  run tr fuel (Exists r ctx key) w =
  shot W tr
       (steps r (request r ctx "exists" (ExistsRequest key (Token r))) fuel) w
       (request r ctx "exists" (ExistsRequest key (Token r)))
       (fun _ => false) Exists_reply.
Proof. unfold Exists, Exists_reply. one_call fuel. Qed.

Lemma List_run (prefix : string) (recursive : bool) (fuel : nat) (w : W) :
  run tr fuel (List r ctx prefix recursive) w =
  shot W tr
       (steps r (request r ctx "list" (ListRequest prefix recursive (Token r))) fuel) w
       (request r ctx "list" (ListRequest prefix recursive (Token r)))
       (fun err => ([], Some err)) List_reply.
Proof. unfold List, List_reply. one_call fuel. Qed.

Lemma Stat_run (key : string) (fuel : nat) (w : W) :
  run tr fuel (Stat r ctx key) w =
  shot W tr
       (steps r (request r ctx "stat" (StatRequest key (Token r))) fuel) w
       (request r ctx "stat" (StatRequest key (Token r)))
       (fun err => (KeyInfo_zero, Some err)) Stat_reply.
Proof. unfold Stat, Stat_reply. one_call fuel. Qed.

(** The loop of [Lock] on a request that could be built, with the client
    it is sent by. *)
Definition lock_loop (cl : option Client) (req : Request)
  : itree httpE (option error) :=
  ITree.iter (fun _ : unit =>
    ITree.bind (ITree.trigger (Do cl req)) (fun out =>
      match out with
      | inr err => Ret (inr (Some (UrlError err)))
      | inl resp =>
          if StatusCode resp =? 201 then Ret (inr None)
          else if negb (StatusCode resp =? 412) then
            Ret (inr (Some (unknown_status (StatusCode resp))))
          else Ret (inl tt)
      end)) tt.

Lemma lock_loop_run (cl : Client) (req : Request) (fuel : nat) :
  forall w, run tr fuel (lock_loop (Some cl) req) w
            = polls W tr Lock_reply fuel w req.
Proof.
  induction fuel as [fuel IH] using lt_wf_ind. intros w.
  destruct fuel as [|fuel]; [reflexivity|].
  unfold lock_loop.
  match goal with |- run _ _ (ITree.iter ?f tt) _ = _ =>
    transitivity (run tr (S fuel)
      (Vis (Do (Some cl) req) (fun out =>
         ITree.bind (ITree.bind (Ret out) (fun out =>
           match out with
           | inr err => Ret (inr (Some (UrlError err)))
           | inl resp =>
               if StatusCode resp =? 201 then Ret (inr None)
               else if negb (StatusCode resp =? 412) then
                 Ret (inr (Some (unknown_status (StatusCode resp))))
               else Ret (inl tt)
           end))
           (fun lr => ITree.on_left lr l (Tau (ITree.iter f l))))) w)
  end.
  { apply run_observe. reflexivity. }
  cbn -[ITree.bind ITree.iter unknown_status].
  destruct (tr req w) as [out w1].
  destruct fuel as [|fuel]; [reflexivity|].
  rewrite (run_observe W tr _ (S fuel) _
             (ITree.bind
                match out with
                | inr err => Ret (inr (Some (UrlError err)))
                | inl resp =>
                    if StatusCode resp =? 201 then Ret (inr None)
                    else if negb (StatusCode resp =? 412) then
                      Ret (inr (Some (unknown_status (StatusCode resp))))
                    else Ret (inl tt)
                end
                (fun lr => ITree.on_left lr l
                   (Tau (ITree.iter (fun _ : unit =>
                      ITree.bind (ITree.trigger (Do (Some cl) req)) (fun out =>
                        match out with
                        | inr err => Ret (inr (Some (UrlError err)))
                        | inl resp =>
                            if StatusCode resp =? 201 then Ret (inr None)
                            else if negb (StatusCode resp =? 412) then
                              Ret (inr (Some (unknown_status (StatusCode resp))))
                            else Ret (inl tt)
                        end)) l)))) w1) by reflexivity.
  unfold Lock_reply.
  destruct out as [resp|e].
  - destruct (StatusCode resp =? 201); [rewrite run_bind_Ret; reflexivity|].
    destruct (negb (StatusCode resp =? 412)); [rewrite run_bind_Ret; reflexivity|].
    rewrite run_bind_Ret. cbn -[ITree.iter unknown_status].
    fold (lock_loop (Some cl) req). rewrite IH by lia. reflexivity.
  - rewrite run_bind_Ret. reflexivity.
Qed.

(** The same loop as an equation between programs: after the call the
    outcome either settles the result or the loop starts over. *)
Lemma lock_loop_unfold (cl : option Client) (req : Request) :
  lock_loop cl req ≈
  ITree.bind (ITree.trigger (Do cl req)) (fun out =>
    match Lock_reply out with
    | inl _ => lock_loop cl req
    | inr res => Ret res
    end).
Proof.
  unfold lock_loop at 1. rewrite unfold_iter, bind_bind.
  apply eutt_eq_bind. intros out. unfold Lock_reply.
  destruct out as [resp|e].
  - destruct (StatusCode resp =? 201); [rewrite bind_ret_l; reflexivity|].
    destruct (negb (StatusCode resp =? 412)); rewrite bind_ret_l; cbn.
    + reflexivity.
    + rewrite tau_eutt. reflexivity.
  - rewrite bind_ret_l. reflexivity.
Qed.

Lemma Lock_run (key : string) (fuel : nat) (w : W) :
  run tr fuel (Lock r ctx key) w =
  match request r ctx "lock" (LockRequest key (Token r)) with
  | inr err => (match fuel with O => None | S _ => Some (Some err) end, w, [])
  | inl req => polls W tr Lock_reply (reach r fuel) w req
  end.
Proof.
  unfold Lock, request, reach.
  destruct (json_Marshal _) as [body|err]; [|destruct fuel; reflexivity].
  destruct (NewRequestWithContext _ _ _ _) as [req|err].
  - cbv zeta. destruct (client r) as [cl|].
    + apply lock_loop_run.
    + destruct fuel; reflexivity.
  - destruct fuel; reflexivity.
Qed.

Lemma shot_polls (R : Type) (fuel : nat) (w : W) (req : Request)
      (fail : error -> R) (reply : outcome -> R) :
  shot W tr fuel w (inl req) fail reply =
  polls W tr (fun out => inr (reply out)) fuel w req.
Proof.
  destruct fuel as [|[|fuel]]; cbn; destruct (tr req w); reflexivity.
Qed.

Lemma polls_map (A B : Type) (g : A -> B) (reply : outcome -> unit + A)
      (req : Request) (fuel : nat) :
  forall w,
    (let '(res, w', log) := polls W tr reply fuel w req in
     (option_map g res, w', log)) =
    polls W tr (fun out => match reply out with
                           | inl u => inl u
                           | inr a => inr (g a)
                           end) fuel w req.
Proof.
  induction fuel as [fuel IH] using lt_wf_ind. intros w.
  destruct fuel as [|[|fuel]]; cbn; [reflexivity| |];
    destruct (tr req w) as [out w1]; [reflexivity|].
  destruct (reply out) as [u|a]; [|reflexivity].
  rewrite <- IH by lia.
  destruct (polls W tr reply fuel w1 req) as [[res w2] log]. reflexivity.
Qed.

(** Every method of the interface runs as a polling loop on one request;
    all but [Lock] answer the first outcome. *)
Lemma invoke_run (c : Storage.call) (fuel : nat) (w : W) :
  run tr fuel (Storage.invoke r ctx c) w =
  match request r ctx (op_name c) (payload r c) with
  | inr err =>
      (match fuel with O => None | S _ => Some (failure c err) end, w, [])
  | inl req => polls W tr (answer c) (reach r fuel) w req
  end.
Proof.
  destruct c; cbn [Storage.invoke op_name payload failure answer];
    rewrite run_map;
    rewrite ?Lock_run, ?Unlock_run, ?Store_run, ?Load_run, ?Delete_run,
            ?Exists_run, ?List_run, ?Stat_run;
    match goal with |- context [request ?a ?b ?c ?d] =>
      destruct (request a b c d) as [req|err] end;
    cbn [steps];
    try (destruct fuel; reflexivity);
    rewrite ?shot_polls; apply polls_map.
Qed.

(** A storage without a client panics at the call, whatever the method,
    once its request is built. *)
Lemma invoke_panics (c : Storage.call) (fuel : nat) (w : W) (req : Request) :
  client r = None ->
  request r ctx (op_name c) (payload r c) = inl req ->
  panics tr (S fuel) (Storage.invoke r ctx c) w = true.
Proof.
  intros Hcl. unfold request.
  destruct c; cbn [Storage.invoke op_name payload]; rewrite panics_map;
    unfold Lock, Unlock, Store, Load, Delete, Exists, List, Stat; cbv zeta;
    (destruct (json_Marshal _) as [body|err]; [|discriminate]);
    (destruct (NewRequestWithContext _ _ _ _) as [req0|err] eqn:En;
       [|discriminate]);
    intros _; rewrite ?Hcl; reflexivity.
Qed.

End Programs.
End RunShape.

(** ** Polling loops *)

Module PollsFacts.
Import Http Shape.

Lemma last_exchange_app (W : Type) (log : list (Exchange W)) (x : Exchange W) :
  last_exchange (log ++ [x]) = Some x.
Proof.
  induction log as [|y log IH]; [reflexivity|].
  cbn [app last_exchange]. destruct (log ++ [x]) eqn:E; [|exact IH].
  destruct log; discriminate.
Qed.

Lemma last_exchange_cons (W : Type) (y : Exchange W) (log : list (Exchange W)) :
  log <> [] -> last_exchange (y :: log) = last_exchange log.
Proof. destruct log; [congruence|reflexivity]. Qed.

Lemma last_exchange_In (W : Type) (log : list (Exchange W)) (x : Exchange W) :
  last_exchange log = Some x -> In x log.
Proof.
  induction log as [|y log IH]; [discriminate|].
  destruct log as [|z log].
  - intros [= ->]. left. reflexivity.
  - intros H. right. apply IH. exact H.
Qed.


Section Polls.
Variable W : Type.
Variable tr : Transport W.
Variable R : Type.
Variable reply : outcome -> unit + R.
Variable req : Request.

Lemma polls_unfold (fuel : nat) (w : W) :
  polls W tr reply (S (S fuel)) w req =
  let '(out, w1) := tr req w in
  let x := {| before := w; sent := req; got := out |} in
  match reply out with
  | inr res => (Some res, w1, [x])
  | inl _ =>
      let '(r, w2, log) := polls W tr reply fuel w1 req in (r, w2, x :: log)
  end.
Proof. reflexivity. Qed.

(** What holds of every exchange of a run: it carries the request, its
    answer is the transport's, and unless it is the last one the answer
    called for another poll. *)
Lemma polls_log (fuel : nat) :
  forall w res w' log,
    polls W tr reply fuel w req = (res, w', log) ->
    Forall (fun x => sent x = req /\ got x = fst (tr req (before x))) log /\
    Forall (fun x => exists u, reply (got x) = inl u) (removelast log) /\
    (forall rep, res = Some rep ->
       exists x, last_exchange log = Some x /\ reply (got x) = inr rep).
Proof.
  induction fuel as [fuel IH] using lt_wf_ind. intros w res w' log.
  destruct fuel as [|[|fuel]].
  - intros [= <- <- <-]. repeat split; try constructor. discriminate.
  - cbn. destruct (tr req w) as [out w1] eqn:E. intros [= <- <- <-].
    repeat split; try constructor; try discriminate; cbn; try rewrite E; auto.
  - rewrite polls_unfold. destruct (tr req w) as [out w1] eqn:E. cbv zeta.
    destruct (reply out) as [u|rep0] eqn:Er.
    + destruct (polls W tr reply fuel w1 req) as [[r1 w2] log1] eqn:Ep.
      intros [= <- <- <-].
      destruct (IH fuel ltac:(lia) _ _ _ _ Ep) as (A & B & C).
      split; [|split].
      * constructor; [cbn; rewrite E; auto|exact A].
      * destruct log1 as [|y log1]; [constructor|].
        change (removelast (?a :: y :: log1)) with (a :: removelast (y :: log1)).
        constructor; [cbn; eauto|exact B].
      * intros rep Hr. destruct (C rep Hr) as (x & Hx & Hx').
        exists x. split; [|exact Hx'].
        rewrite last_exchange_cons; [exact Hx|].
        intros ->. discriminate.
    + intros [= <- <- <-]. split; [|split].
      * repeat constructor; cbn; rewrite E; reflexivity.
      * constructor.
      * intros rep [= <-]. eexists. split; [reflexivity|exact Er].
Qed.

(** After an answer that settles the call the loop returns at its next
    step, with no further exchange. *)
Lemma polls_settles (fuel : nat) :
  forall w res w' log x rep,
    polls W tr reply fuel w req = (res, w', log) ->
    last_exchange log = Some x ->
    reply (got x) = inr rep ->
    polls W tr reply (S fuel) w req = (Some rep, w', log).
Proof.
  induction fuel as [fuel IH] using lt_wf_ind.
  intros w res w' log x rep Hp Hl Hx.
  destruct fuel as [|[|fuel]].
  - injection Hp as <- <- <-. discriminate.
  - rewrite polls_unfold. cbn in Hp.
    destruct (tr req w) as [out w1] eqn:E.
    injection Hp as <- <- <-. injection Hl as <-. cbn in Hx.
    cbv zeta. rewrite Hx. reflexivity.
  - rewrite polls_unfold. rewrite polls_unfold in Hp.
    destruct (tr req w) as [out w1] eqn:E. cbv zeta in *.
    destruct (reply out) as [u|rep0] eqn:Er.
    + destruct (polls W tr reply fuel w1 req) as [[r1 w2] log1] eqn:Ep.
      injection Hp as <- <- <-.
      destruct log1 as [|y log1].
      * injection Hl as <-. cbn in Hx. congruence.
      * rewrite last_exchange_cons in Hl by discriminate.
        rewrite (IH fuel ltac:(lia) _ _ _ _ _ _ Ep Hl Hx). reflexivity.
    + injection Hp as <- <- <-. injection Hl as <-. cbn in Hx.
      rewrite Er in Hx. injection Hx as <-. reflexivity.
Qed.

(** After an answer that calls for it the loop has not returned, and two
    steps later it has made exactly one more call, from the world the
    last one left. *)
Lemma polls_again (fuel : nat) :
  forall w res w' log x u,
    polls W tr reply fuel w req = (res, w', log) ->
    last_exchange log = Some x ->
    reply (got x) = inl u ->
    res = None /\
    exists res' w'',
      polls W tr reply (S (S fuel)) w req =
      (res', w'', log ++ [{| before := w'; sent := req;
                             got := fst (tr req w') |}]).
Proof.
  induction fuel as [fuel IH] using lt_wf_ind.
  intros w res w' log x u Hp Hl Hx.
  destruct fuel as [|[|fuel]].
  - injection Hp as <- <- <-. discriminate.
  - rewrite polls_unfold. cbn in Hp.
    destruct (tr req w) as [out w1] eqn:E.
    injection Hp as <- <- <-. injection Hl as <-. cbn in Hx.
    split; [reflexivity|].
    cbv zeta. rewrite Hx. cbn.
    destruct (tr req w1) as [out1 w2]. cbn. eauto.
  - rewrite polls_unfold. rewrite polls_unfold in Hp.
    destruct (tr req w) as [out w1] eqn:E. cbv zeta in *.
    destruct (reply out) as [u0|rep0] eqn:Er.
    + destruct (polls W tr reply fuel w1 req) as [[r1 w2] log1] eqn:Ep.
      injection Hp as <- <- <-.
      destruct log1 as [|y log1].
      * (* the fuel ran out before the next call *)
        assert (fuel = 0%nat) as ->.
        { destruct fuel as [|[|fuel]]; [reflexivity| |]; cbn in Ep;
            destruct (tr req w1) as [o w0]; [discriminate|].
          destruct (reply o); [|discriminate].
          destruct (polls W tr reply fuel w0 req) as [[? ?] ?]. discriminate. }
        cbn in Ep. injection Ep as <- <-.
        split; [reflexivity|].
        cbn [polls]. destruct (tr req w1) as [out1 w3].
        destruct (reply out1); cbn; eauto.
      * rewrite last_exchange_cons in Hl by discriminate.
        destruct (IH fuel ltac:(lia) _ _ _ _ _ _ Ep Hl Hx)
          as (-> & res' & w'' & Hq).
        split; [reflexivity|].
        rewrite Hq. cbn. eauto.
    + injection Hp as <- <- <-. injection Hl as <-. cbn in Hx. congruence.
Qed.


End Polls.
End PollsFacts.

(** ** Configuration *)

Module ConfigFacts.
Import Rest.

Lemma eqb_empty (s : string) : String.eqb s "" = true <-> s = "".
Proof. apply String.eqb_eq. Qed.

(** C9. [Validate] fails exactly when the endpoint or the token is the
    empty string; the message names the endpoint when the endpoint is
    missing and the token when only the token is missing; with both fields
    set it returns nil. *)
Theorem Validate_iff (r : RestStorage) :
  (Validate r <> None <-> Endpoint r = "" \/ Token r = "") /\
  (Endpoint r = "" ->
   Validate r = Some (errorString "endpoint must be specified")) /\
  (Endpoint r <> "" -> Token r = "" ->
   Validate r = Some (errorString "token must be specified")) /\
  (Endpoint r <> "" -> Token r <> "" -> Validate r = None).
Proof.
  unfold Validate.
  destruct (String.eqb_spec (Endpoint r) "") as [He|He];
    destruct (String.eqb_spec (Token r) "") as [Ht|Ht];
    repeat split; intros; try congruence; auto; try discriminate.
  destruct H; contradiction.
Qed.

Example Validate_examples :
  Validate {| Endpoint := ""; Token := "t"; client := None |}
    = Some (errorString "endpoint must be specified") /\
  Validate {| Endpoint := "https://kv.example/"; Token := ""; client := None |}
    = Some (errorString "token must be specified") /\
  Validate {| Endpoint := ""; Token := ""; client := None |}
    = Some (errorString "endpoint must be specified") /\
  Validate Sim.r0 = None.
Proof. repeat split. Qed.

End ConfigFacts.

(** ** Reading the Caddyfile *)

Module UnmarshalFacts.
Import Rest.

Section Loop.
Variable isNextOnNewLine : Caddyfile.Token -> Caddyfile.Token -> bool.

(** The loop, one turn at a time. *)
Lemma UnmarshalLoop_unfold (d : Caddyfile.Dispenser) (r : RestStorage) :
  UnmarshalLoop isNextOnNewLine d r =
  match Caddyfile.Next d with
  | (d1, true) =>
      UnmarshalLoop isNextOnNewLine (fst (turn isNextOnNewLine d1 r))
                    (snd (turn isNextOnNewLine d1 r))
  | (d1, false) => (d1, r)
  end.
Proof.
  funelim (UnmarshalLoop isNextOnNewLine d r); rewrite e; reflexivity.
Qed.

(** A property kept by every turn holds when the loop ends. *)
Lemma UnmarshalLoop_invariant (I : Caddyfile.Dispenser -> RestStorage -> Prop) :
  (forall d d1 r b, I d r -> Caddyfile.Next d = (d1, b) -> I d1 r) ->
  (forall d r, I d r ->
     I (fst (turn isNextOnNewLine d r)) (snd (turn isNextOnNewLine d r))) ->
  forall d r, I d r ->
    I (fst (UnmarshalLoop isNextOnNewLine d r))
      (snd (UnmarshalLoop isNextOnNewLine d r)).
Proof.
  intros Hnext Hturn d.
  remember (Caddyfile.remaining d) as n eqn:En. revert d En.
  induction n as [n IH] using lt_wf_ind. intros d En r Hd.
  rewrite UnmarshalLoop_unfold.
  destruct (Caddyfile.Next d) as [d1 [|]] eqn:E.
  - pose proof (Next_remaining _ _ E) as Hlt.
    pose proof (turn_remaining isNextOnNewLine d1 r) as Hle.
    eapply (IH (Caddyfile.remaining (fst (turn isNextOnNewLine d1 r))));
      [lia|reflexivity|].
    apply Hturn. eapply Hnext; eassumption.
  - cbn. eapply Hnext; eassumption.
Qed.

Lemma Next_tokens (d : Caddyfile.Dispenser) :
  Caddyfile.tokens (fst (Caddyfile.Next d)) = Caddyfile.tokens d.
Proof. unfold Caddyfile.Next. destruct (_ <? _); reflexivity. Qed.

Lemma Args_tokens (d : Caddyfile.Dispenser) (v : string) :
  Caddyfile.tokens (fst (fst (Caddyfile.Args isNextOnNewLine d v)))
  = Caddyfile.tokens d.
Proof.
  unfold Caddyfile.Args, Caddyfile.NextArg, Caddyfile.nextOnSameLine.
  destruct (Caddyfile.cursor d <? 0); cbn.
  - destruct (String.eqb _ "{"); reflexivity.
  - destruct (Caddyfile.cursor d >=? _); cbn; [reflexivity|].
    destruct (isNextOnNewLine _ _); cbn; [reflexivity|].
    destruct (String.eqb _ "{"); reflexivity.
Qed.

Lemma turn_tokens (d : Caddyfile.Dispenser) (r : RestStorage) :
  Caddyfile.tokens (fst (turn isNextOnNewLine d r)) = Caddyfile.tokens d.
Proof.
  unfold turn. pose proof (Args_tokens d "") as H.
  destruct (Caddyfile.Args isNextOnNewLine d "") as [[d1 value] ok].
  destruct ok; exact H.
Qed.

(** The current token's text is the empty string or the text of one of
    the tokens. *)
Lemma Val_token (d : Caddyfile.Dispenser) :
  Caddyfile.Val d = "" \/
  exists t, In t (Caddyfile.tokens d) /\ Caddyfile.Val d = Caddyfile.Text t.
Proof.
  unfold Caddyfile.Val, Caddyfile.at_cursor, Caddyfile.len.
  destruct (Caddyfile.cursor d <? 0) eqn:E0; [left; reflexivity|].
  destruct (Caddyfile.cursor d >=? _) eqn:E1; [left; reflexivity|].
  right. eexists. split; [|reflexivity].
  apply nth_In. apply Z.ltb_ge in E0.
  rewrite Z.geb_leb in E1. apply Z.leb_gt in E1. lia.
Qed.

Lemma assign_other (key value : string) (r : RestStorage) :
  key <> "endpoint" -> key <> "token" -> assign key value r = r.
Proof.
  intros H1 H2. unfold assign.
  destruct (String.eqb_spec key "endpoint"); [contradiction|].
  destruct (String.eqb_spec key "token"); [contradiction|reflexivity].
Qed.

Lemma assign_Endpoint (key value : string) (r : RestStorage) :
  key <> "endpoint" -> Endpoint (assign key value r) = Endpoint r.
Proof.
  intros H1. unfold assign.
  destruct (String.eqb_spec key "endpoint"); [contradiction|].
  destruct (String.eqb key "token"); reflexivity.
Qed.

Lemma assign_Token (key value : string) (r : RestStorage) :
  key <> "token" -> Token (assign key value r) = Token r.
Proof.
  intros H1. unfold assign.
  destruct (String.eqb key "endpoint"); [reflexivity|].
  destruct (String.eqb_spec key "token"); [contradiction|reflexivity].
Qed.

Lemma turn_unknown_key (d : Caddyfile.Dispenser) (r : RestStorage) :
  Caddyfile.Val d <> "endpoint" -> Caddyfile.Val d <> "token" ->
  snd (turn isNextOnNewLine d r) = r.
Proof.
  intros H1 H2. unfold turn.
  destruct (Caddyfile.Args isNextOnNewLine d "") as [[d1 value] ok].
  destruct ok; cbn; [apply assign_other; assumption|reflexivity].
Qed.

Lemma turn_no_argument (d : Caddyfile.Dispenser) (r : RestStorage) :
  snd (Caddyfile.Args isNextOnNewLine d "") = false ->
  snd (turn isNextOnNewLine d r) = r.
Proof.
  unfold turn.
  destruct (Caddyfile.Args isNextOnNewLine d "") as [[d1 value] ok].
  cbn. intros ->. reflexivity.
Qed.

Lemma turn_with_argument (d : Caddyfile.Dispenser) (r : RestStorage) :
  snd (Caddyfile.Args isNextOnNewLine d "") = true ->
  snd (turn isNextOnNewLine d r) =
  assign (Caddyfile.Val d)
         (snd (fst (Caddyfile.Args isNextOnNewLine d ""))) r.
Proof.
  unfold turn.
  destruct (Caddyfile.Args isNextOnNewLine d "") as [[d1 value] ok].
  cbn. intros ->. reflexivity.
Qed.

(** With every token on a line of its own no key has an argument. *)
Lemma turn_alone (d : Caddyfile.Dispenser) (r : RestStorage) :
  (forall t1 t2, isNextOnNewLine t1 t2 = true) ->
  snd (turn isNextOnNewLine d r) = r.
Proof.
  intros Hnl.
  destruct (Z.ltb_spec (Caddyfile.cursor d) 0) as [Hneg|Hpos].
  - apply turn_unknown_key; unfold Caddyfile.Val;
      replace (Caddyfile.cursor d <? 0) with true
        by (symmetry; apply Z.ltb_lt; exact Hneg); discriminate.
  - apply turn_no_argument.
    unfold Caddyfile.Args, Caddyfile.NextArg, Caddyfile.nextOnSameLine.
    replace (Caddyfile.cursor d <? 0) with false
      by (symmetry; apply Z.ltb_ge; exact Hpos).
    destruct (Caddyfile.cursor d >=? _); [reflexivity|].
    rewrite Hnl. reflexivity.
Qed.

Lemma UnmarshalCaddyfile_loop (r : RestStorage) (d : Caddyfile.Dispenser) :
  UnmarshalCaddyfile isNextOnNewLine r d =
  (snd (UnmarshalLoop isNextOnNewLine d r),
   fst (UnmarshalLoop isNextOnNewLine d r), None).
Proof.
  unfold UnmarshalCaddyfile.
  destruct (UnmarshalLoop isNextOnNewLine d r). reflexivity.
Qed.

(** C10. [UnmarshalCaddyfile] returns nil for every dispenser. Its loop
    takes one turn per token that [d.Next()] reaches; a turn whose key is
    neither [endpoint] nor [token] leaves the receiver as it was, and so
    does a turn whose key has no argument. Over the whole call: a field
    is only ever set under its own key, and with every token on a line of
    its own nothing is set. *)
Theorem UnmarshalCaddyfile_never_fails (r : RestStorage) (d : Caddyfile.Dispenser) :
  snd (UnmarshalCaddyfile isNextOnNewLine r d) = None /\
  UnmarshalCaddyfile isNextOnNewLine r d =
    match Caddyfile.Next d with
    | (d1, true) =>
        UnmarshalCaddyfile isNextOnNewLine
          (snd (turn isNextOnNewLine d1 r)) (fst (turn isNextOnNewLine d1 r))
    | (d1, false) => (r, d1, None)
    end /\
  (forall d1 r1,
     Caddyfile.Val d1 <> "endpoint" -> Caddyfile.Val d1 <> "token" ->
     snd (turn isNextOnNewLine d1 r1) = r1) /\
  (forall d1 r1,
     snd (Caddyfile.Args isNextOnNewLine d1 "") = false ->
     snd (turn isNextOnNewLine d1 r1) = r1) /\
  ((forall t, In t (Caddyfile.tokens d) -> Caddyfile.Text t <> "endpoint") ->
   Endpoint (fst (fst (UnmarshalCaddyfile isNextOnNewLine r d))) = Endpoint r) /\
  ((forall t, In t (Caddyfile.tokens d) -> Caddyfile.Text t <> "token") ->
   Token (fst (fst (UnmarshalCaddyfile isNextOnNewLine r d))) = Token r) /\
  ((forall t1 t2, isNextOnNewLine t1 t2 = true) ->
   fst (fst (UnmarshalCaddyfile isNextOnNewLine r d)) = r).
Proof.
  split; [rewrite UnmarshalCaddyfile_loop; reflexivity|].
  split.
  { rewrite UnmarshalCaddyfile_loop, UnmarshalLoop_unfold.
    destruct (Caddyfile.Next d) as [d1 [|]]; [|reflexivity].
    rewrite UnmarshalCaddyfile_loop. reflexivity. }
  split; [exact turn_unknown_key|].
  split; [exact turn_no_argument|].
  rewrite UnmarshalCaddyfile_loop. cbn [fst snd].
  split; [|split].
  - intros Hno.
    apply (UnmarshalLoop_invariant
             (fun d' r' => Caddyfile.tokens d' = Caddyfile.tokens d /\
                           Endpoint r' = Endpoint r)); [| |auto].
    + intros d0 d1 r0 b [Ht He] E. split; [|exact He].
      rewrite <- Ht. change d1 with (fst (d1, b)). rewrite <- E.
      apply Next_tokens.
    + intros d0 r0 [Ht He]. split; [rewrite turn_tokens; exact Ht|].
      rewrite <- He.
      destruct (snd (Caddyfile.Args isNextOnNewLine d0 "")) eqn:Ea.
      * rewrite turn_with_argument by exact Ea. apply assign_Endpoint.
        destruct (Val_token d0) as [->|(t & Hin & ->)]; [discriminate|].
        apply Hno. rewrite <- Ht. exact Hin.
      * rewrite turn_no_argument by exact Ea. reflexivity.
  - intros Hno.
    apply (UnmarshalLoop_invariant
             (fun d' r' => Caddyfile.tokens d' = Caddyfile.tokens d /\
                           Token r' = Token r)); [| |auto].
    + intros d0 d1 r0 b [Ht He] E. split; [|exact He].
      rewrite <- Ht. change d1 with (fst (d1, b)). rewrite <- E.
      apply Next_tokens.
    + intros d0 r0 [Ht He]. split; [rewrite turn_tokens; exact Ht|].
      rewrite <- He.
      destruct (snd (Caddyfile.Args isNextOnNewLine d0 "")) eqn:Ea.
      * rewrite turn_with_argument by exact Ea. apply assign_Token.
        destruct (Val_token d0) as [->|(t & Hin & ->)]; [discriminate|].
        apply Hno. rewrite <- Ht. exact Hin.
      * rewrite turn_no_argument by exact Ea. reflexivity.
  - intros Hnl.
    apply (UnmarshalLoop_invariant (fun _ r' => r' = r)); [| |reflexivity].
    + intros; assumption.
    + intros d0 r0 ->. apply turn_alone. exact Hnl.
Qed.

End Loop.

(** Tokens of a storage block as Caddy hands them over. *)
Definition tok (line : Z) (text : string) : Caddyfile.Token :=
  {| Caddyfile.File := "Caddyfile"; Caddyfile.Line := line;
     Caddyfile.Text := text |}.

Definition by_line (t1 t2 : Caddyfile.Token) : bool :=
  Caddyfile.Line t1 <? Caddyfile.Line t2.

Example UnmarshalCaddyfile_block :
  UnmarshalCaddyfile by_line {| Endpoint := ""; Token := ""; client := None |}
    {| Caddyfile.tokens :=
         [tok 1 "rest"; tok 1 "{";
          tok 2 "endpoint"; tok 2 "https://kv.example/";
          tok 3 "colour"; tok 3 "blue";
          tok 4 "token";
          tok 5 "}"];
       Caddyfile.cursor := -1 |}
  = ({| Endpoint := "https://kv.example/"; Token := ""; client := None |},
     {| Caddyfile.tokens :=
         [tok 1 "rest"; tok 1 "{";
          tok 2 "endpoint"; tok 2 "https://kv.example/";
          tok 3 "colour"; tok 3 "blue";
          tok 4 "token";
          tok 5 "}"];
       Caddyfile.cursor := 7 |}, None).
Proof. reflexivity. Qed.

End UnmarshalFacts.

(** ** Operations that make one call *)

Module ShotFacts.
Import Http Shape.

Section Shot.
Variable W : Type.
Variable tr : Transport W.
Variable R : Type.
Variable fail : error -> R.
Variable reply : outcome -> R.

(** A finished run of a one-call operation: the request could not be
    built and nothing was sent, or one exchange took place and the reply
    is read off its outcome. *)
Lemma shot_done (fuel : nat) (w w' : W) (built : Request + error) (rep : R)
      (log : list (Exchange W)) :
  shot W tr fuel w built fail reply = (Some rep, w', log) ->
  (exists err, built = inr err /\ rep = fail err /\ log = [] /\ w' = w) \/
  (exists req out,
     built = inl req /\ tr req w = (out, w') /\
     log = [{| before := w; sent := req; got := out |}] /\
     rep = reply out).
Proof.
  destruct fuel as [|fuel]; [discriminate|]. cbn.
  destruct built as [req|err].
  - destruct (tr req w) as [out w1] eqn:E.
    destruct fuel; [discriminate|]. intros [= <- <- <-].
    right. exists req, out. auto.
  - intros [= <- <- <-]. left. eauto.
Qed.



End Shot.

Section Request.
Import Go Rest.
Context {L : Lib}.

(** What a built request looks like. *)
Lemma request_fields (r : RestStorage) (ctx : Context) (name : string)
      (payload : jstruct) (req : Request) :
  request r ctx name payload = inl req ->
  Method req = "POST" /\
  URL req = String.append (Endpoint r) name /\
  Ctx req = ctx /\
  Header req = [("Content-Type", "application/json")] /\
  json_Marshal payload = inl (Body req).
Proof.
  unfold request. destruct (json_Marshal payload) as [body|err]; [|discriminate].
  unfold NewRequestWithContext. destruct (url_Parse _); [discriminate|].
  intros [= <-]. repeat split.
Qed.

Lemma r0_has_client : client Sim.r0 <> None.
Proof. discriminate. Qed.

(** With a client a run gets as far as its fuel lets it; without one, and
    once the request is built, it gets nowhere. *)
Lemma reach_client (r : RestStorage) (fuel : nat) :
  client r <> None -> reach r fuel = fuel.
Proof. unfold reach. destruct (client r); [reflexivity|contradiction]. Qed.

Lemma steps_client (r : RestStorage) (built : Request + error) (fuel : nat) :
  client r <> None -> steps r built fuel = fuel.
Proof. intros H. destruct built; cbn; [apply reach_client; exact H|reflexivity]. Qed.

Lemma reach_nil (r : RestStorage) (fuel : nat) :
  client r = None -> reach r fuel = 0%nat.
Proof. unfold reach. intros ->. reflexivity. Qed.

End Request.
End ShotFacts.

(** ** The boolean contract of [Exists] *)

Module ExistsFacts.
Import Http Go Rest Shape RunShape ShotFacts.

Section Exists.
Context {L : Lib}.
Variable W : Type.
Variable tr : Transport W.
Variables (r : RestStorage) (ctx : Context).



(** C5. On a storage whose client is nil, as on every instance the host
    makes with [New], [Exists] does not keep its boolean contract: once
    its request is built it calls [Do] on the nil client and panics, with
    nothing sent; it returns neither true nor false, however long it is
    given. *)
Theorem Exists_panics_without_a_client (key : string) (req : Request)
        (fuel : nat) (w : W) :
  client r = None ->
  request r ctx "exists" (ExistsRequest key (Token r)) = inl req ->
  panics tr (S fuel) (Exists r ctx key) w = true /\
  run tr fuel (Exists r ctx key) w = (None, w, []).
Proof.
  intros Hcl Hreq. split.
  - unfold Exists. unfold request in Hreq.
    destruct (json_Marshal _) as [body|err]; [|discriminate].
    destruct (NewRequestWithContext _ _ _ _) as [req0|err]; [|discriminate].
    cbv zeta. rewrite Hcl. reflexivity.
  - rewrite Exists_run, Hreq. cbn [steps]. rewrite reach_nil by exact Hcl.
    reflexivity.
Qed.

End Exists.

#[local] Existing Instance Sim.lib.

Example Exists_examples :
  let call answers :=
    fst (fst (run Sim.transport 2 (Exists Sim.r0 (Caller 1) "k") (Sim.world answers))) in
  call [Sim.status 200 (Sim.exists_body true)] = Some true /\
  call [Sim.status 200 (Sim.exists_body false)] = Some false /\
  call [Sim.status 200 "{not json"] = Some false /\
  call [Sim.status 404 ""] = Some false /\
  call [Sim.status 500 (Sim.exists_body true)] = Some false /\
  call [] = Some false /\
  fst (fst (run Sim.transport 2
              (Exists {| Endpoint := "https://kv example/"; Token := "t";
                         client := Some Client_zero |}
                      (Caller 1) "k")
              (Sim.world [Sim.status 200 (Sim.exists_body true)]))) = Some false.
Proof. repeat split. Qed.

(** The instance the host makes for the storage block of a Caddyfile:
    [New], then the block read by [UnmarshalCaddyfile]. *)
Definition instance : RestStorage :=
  fst (fst (UnmarshalCaddyfile UnmarshalFacts.by_line (New (CaddyModule init))
              {| Caddyfile.tokens :=
                   [UnmarshalFacts.tok 1 "rest"; UnmarshalFacts.tok 1 "{";
                    UnmarshalFacts.tok 2 "endpoint";
                    UnmarshalFacts.tok 2 "https://kv.example/";
                    UnmarshalFacts.tok 3 "token"; UnmarshalFacts.tok 3 "s3cret";
                    UnmarshalFacts.tok 4 "}"];
                 Caddyfile.cursor := -1 |})).

(** The instance passes validation, and the remote would answer that the
    key exists; [Exists] panics. *)
Lemma Exists_panics_without_a_client_witness :
  Validate instance = None /\
  panics Sim.transport 6 (Exists instance (Caller 1) "k")
         (Sim.world [Sim.status 200 (Sim.exists_body true)]) = true /\
  run Sim.transport 5 (Exists instance (Caller 1) "k")
      (Sim.world [Sim.status 200 (Sim.exists_body true)])
  = (None, Sim.world [Sim.status 200 (Sim.exists_body true)], []).
Proof.
  exact (conj eq_refl
           (Exists_panics_without_a_client Sim.World Sim.transport instance
              (Caller 1) "k" _ 5
              (Sim.world [Sim.status 200 (Sim.exists_body true)])
              eq_refl eq_refl)).
Defined.

(** The storage that [init] registers has a client, and so has the
    storage of the earlier revision, which calls [http.Post]: there
    [Exists] answers. *)
Example Exists_with_a_client :
  client init <> None /\
  fst (fst (run Sim.transport 2 (Exists Sim.r0 (Caller 1) "k")
                (Sim.world [Sim.status 200 (Sim.exists_body true)])))
  = Some true /\
  fst (fst (run Sim.transport 2 (Rest0.Exists Sim.r0_before "k")
                (Sim.world [Sim.status 200 (Sim.exists_body true)])))
  = Some true.
Proof. repeat split. discriminate. Qed.

End ExistsFacts.

(** ** Values cross the wire unchanged *)

Module ValueFacts.
Import Http Go Rest Shape RunShape ShotFacts.

Section Value.
Context {L : Lib}.
Variable W : Type.
Variable tr : Transport W.
Variables (r : RestStorage) (ctx : Context).

(** C4. For every byte sequence, decoding its base64 encoding gives the
    sequence back with no error. On a storage with a client, [Store]
    makes one call, whose request is the one built from the record with
    that encoding in its [value] field, and returns nil when the answer is
    201; and [Load], answered 200 with a record whose [value] field is
    the text [Store] sent, returns exactly the bytes stored. *)
Theorem Store_Load_round_trip (value : list byte) :
  Base64.DecodeString (Base64.EncodeToString value) = (value, None) /\
  forall (key : string) (fuel : nat) (w w1 w2 w3 : W)
         (store_req load_req : Request) (created found : Response)
         (loadResp : LoadResponse),
    client r <> None ->
    request r ctx "store"
            (StoreRequest key (Base64.EncodeToString value) (Token r))
    = inl store_req ->
    request r ctx "load" (LoadRequest key (Token r)) = inl load_req ->
    tr store_req w = (inl created, w1) ->
    StatusCode created = 201 ->
    tr load_req w2 = (inl found, w3) ->
    StatusCode found = 200 ->
    Decode decode_LoadResponse (RespBody found) = inl loadResp ->
    LoadResponse_Value loadResp = Base64.EncodeToString value ->
    json_Marshal (StoreRequest key (Base64.EncodeToString value) (Token r))
    = inl (Body store_req) /\
    run tr (S (S fuel)) (Store r ctx key value) w
    = (Some None, w1,
       [{| before := w; sent := store_req; got := inl created |}]) /\
    run tr (S (S fuel)) (Load r ctx key) w2
    = (Some (value, None), w3,
       [{| before := w2; sent := load_req; got := inl found |}]).
Proof.
  split; [apply Base64Facts.roundtrip|].
  intros key fuel w w1 w2 w3 store_req load_req created found loadResp
         Hcl Hstore Hload Hts Hs1 Htl Hs2 Hd Hv.
  split; [apply request_fields in Hstore; tauto|]. split.
  - rewrite Store_run, Hstore, steps_client by exact Hcl.
    cbn [shot]. rewrite Hts. unfold Store_reply. rewrite Hs1. reflexivity.
  - rewrite Load_run, Hload, steps_client by exact Hcl.
    cbn [shot]. rewrite Htl. unfold Load_reply. rewrite Hs2, Hd, Hv.
    cbn [Z.eqb Pos.eqb negb]. rewrite Base64Facts.roundtrip. reflexivity.
Qed.

End Value.

#[local] Existing Instance Sim.lib.

(** [Store] and then [Load] against the remote that keeps what it is
    sent, from an empty table. *)
Definition store_then_load (value : list byte)
  : option (option error) * option (list byte * option error) :=
  let '(stored, table, _) :=
    run Sim.keeper 2 (Store Sim.r0 (Caller 1) "k" value) [] in
  (stored, fst (fst (run Sim.keeper 2 (Load Sim.r0 (Caller 1) "k") table))).

Example store_then_load_examples :
  store_then_load [] = (Some None, Some ([], None)) /\
  store_then_load [xff; x00; xc3; x28; x80]
  = (Some None, Some ([xff; x00; xc3; x28; x80], None)) /\
  store_then_load [x68; x69] = (Some None, Some ([x68; x69], None)) /\
  fst (fst (run Sim.keeper 2 (Load Sim.r0 (Caller 1) "k") []))
  = Some ([], Some ErrNotExist).
Proof. repeat split. Qed.

Definition store_request : Request :=
  {| Method := "POST"; URL := "https://kv.example/store"; Ctx := Caller 1;
     Header := [("Content-Type", "application/json")];
     Body := Sim.store_body "k" "/wDDKIA=" "s3cret" |}.

Definition load_request : Request :=
  {| Method := "POST"; URL := "https://kv.example/load"; Ctx := Caller 1;
     Header := [("Content-Type", "application/json")];
     Body := Sim.render (LoadRequest "k" "s3cret") |}.

(** Five bytes that are no UTF-8 text, stored in an empty table and loaded
    from the table the store left. *)
Lemma Store_Load_round_trip_witness :
  run Sim.keeper 2 (Store Sim.r0 (Caller 1) "k" [xff; x00; xc3; x28; x80]) []
  = (Some None, [("k", "/wDDKIA=")],
     [{| before := []; sent := store_request;
         got := Sim.status 201 EmptyString |}]) /\
  run Sim.keeper 2 (Load Sim.r0 (Caller 1) "k") [("k", "/wDDKIA=")]
  = (Some ([xff; x00; xc3; x28; x80], None), [("k", "/wDDKIA=")],
     [{| before := [("k", "/wDDKIA=")]; sent := load_request;
         got := Sim.status 200 (Sim.load_body "/wDDKIA=") |}]).
Proof.
  exact (proj2 (proj2 (Store_Load_round_trip (L := Sim.lib) Sim.Table
                         Sim.keeper Sim.r0 (Caller 1)
                         [xff; x00; xc3; x28; x80])
                      "k" 0%nat [] [("k", "/wDDKIA=")] [("k", "/wDDKIA=")]
                      [("k", "/wDDKIA=")] store_request load_request
                      {| StatusCode := 201; RespBody := EmptyString |}
                      {| StatusCode := 200;
                         RespBody := Sim.load_body "/wDDKIA=" |}
                      {| LoadResponse_Value := "/wDDKIA=" |}
                      r0_has_client eq_refl eq_refl eq_refl eq_refl eq_refl
                      eq_refl eq_refl eq_refl)).
Defined.

End ValueFacts.

(** ** The text of the unexpected-status error *)

Module FmtFacts.
Import Rest.









Example unknown_status_500 :
  unknown_status 500
  = errorString "Unknown status code received: {}%!(EXTRA int=500)".
Proof. reflexivity. Qed.

Example Sprintf_verbs :
  Fmt.Sprintf "%d keys, %v%% done" [3; 50] = "3 keys, 50% done" /\
  Fmt.Sprintf "%d and %d" [1] = "1 and %!d(MISSING)" /\
  Fmt.Sprintf "none" [1; -2] = "none%!(EXTRA int=1, int=-2)".
Proof. repeat split. Qed.

End FmtFacts.

(** ** Status codes and errors, method by method *)

Module InterfaceFacts.
Import Http Go Rest Storage Shape RunShape PollsFacts.

(** base64 fails with [CorruptInputError] only. *)
Lemma decode_error_kind (src : string) :
  forall j dbuf si dst err,
    snd (Base64.decode j dbuf si src dst) = Some err ->
    exists offset, err = CorruptInputError offset.
Proof.
  assert (corrupt : forall (dst : list byte) off err,
             snd (dst, Some (CorruptInputError off)) = Some err ->
             exists offset, err = CorruptInputError offset).
  { intros dst off err [= <-]. eauto. }
  assert (clean : forall (dst : list byte) err,
             snd (dst, @None error) = Some err ->
             exists offset, err = CorruptInputError offset).
  { intros dst err [=]. }
  induction src as [|c rest IH]; intros j dbuf si dst err.
  - destruct j; [apply clean|apply corrupt].
  - cbn [Base64.decode]. cbv zeta.
    destruct (negb (Base64.decodeMap c =? 255)).
    { destruct j as [|[|[|[|j]]]]; apply IH. }
    destruct (_ || _)%bool; [apply IH|].
    destruct (negb (Ascii.eqb c Base64.padChar)); [apply corrupt|].
    destruct j as [|[|[|j]]]; [apply corrupt|apply corrupt| |].
    + destruct (Base64.skipNewlines (si + 1) rest) as [si1 rest1].
      destruct rest1 as [|c' rest']; [apply corrupt|].
      destruct (negb (Ascii.eqb c' Base64.padChar)); [apply corrupt|].
      destruct (Base64.skipNewlines (si1 + 1) rest') as [si2 rest2].
      destruct rest2; [apply clean|apply corrupt].
    + destruct (Base64.skipNewlines (si + 1) rest) as [si1 rest1].
      destruct rest1; [apply clean|apply corrupt].
Qed.

Section Interface.
Context {L : Lib}.

(** A request fails to be built in [json.Marshal] or in
    [http.NewRequestWithContext]. *)
Lemma request_error_kind (r : RestStorage) (ctx : Context) (name : string)
      (p : jstruct) (err : error) :
  request r ctx name p = inr err ->
  (exists msg, err = MarshalError msg) \/ (exists msg, err = RequestError msg).
Proof.
  unfold request, json_Marshal, NewRequestWithContext.
  destruct (marshal p); [|intros [= <-]; eauto].
  destruct (url_Parse _); [intros [= <-]; eauto|discriminate].
Qed.


(** Only [Lock] ever polls again. *)
Lemma answer_again (c : call) (out : outcome) (u : unit) :
  answer c out = inl u ->
  (exists key, c = CallLock key) /\
  exists resp, out = inl resp /\ StatusCode resp = 412.
Proof.
  destruct c; cbn; try discriminate.
  unfold Lock_reply. destruct out as [resp|e]; [|discriminate].
  destruct (Z.eqb_spec (StatusCode resp) 201); [discriminate|].
  destruct (Z.eqb_spec (StatusCode resp) 412); [|discriminate].
  intros _. eauto.
Qed.




Variable W : Type.
Variable tr : Transport W.
Variables (r : RestStorage) (ctx : Context).


(** All methods but [Lock] make at most one call. *)
Lemma invoke_one_call (c : call) (fuel : nat) (w w' : W) (res : option reply)
      (log : list (Exchange W)) :
  (forall key, c <> CallLock key) ->
  run tr fuel (invoke r ctx c) w = (res, w', log) ->
  (List.length log <= 1)%nat.
Proof.
  intros Hc. rewrite invoke_run.
  destruct (request r ctx (op_name c) (payload r c)) as [req|err].
  - intros H. destruct (polls_log W tr _ _ _ _ _ _ _ _ H) as (_ & B & _).
    destruct log as [|x [|y log]]; cbn; try lia.
    exfalso. inversion B as [|? ? (u & Hu) _]; subst.
    apply answer_again in Hu. destruct Hu as ((key & ->) & _).
    exact (Hc key eq_refl).
  - destruct fuel; intros [= <- <- <-]; cbn; lia.
Qed.

End Interface.
End InterfaceFacts.

(** ** The earlier revision in the reading of [Shape] *)

Module Rest0Shape.
Import Http Go Rest Storage Shape RunFacts RunShape PollsFacts ShotFacts
       InterfaceFacts.

(** The storage of the present revision with the same endpoint and token,
    and with a client. *)
Definition upgraded (r : Rest0.RestStorage) : RestStorage :=
  {| Endpoint := Rest0.Endpoint r; Token := Rest0.Token r;
     client := Some Client_zero |}.

(** What the earlier revision keeps of an error of the present one: a
    missing key and an unexpected status are the same error, which does
    not tell the status. *)
Definition forget (e : error) : error :=
  match e with
  | ErrNotExist | errorString _ => Rest0.unknown_status
  | _ => e
  end.

Lemma forget_DecodeString (s : string) :
  snd (Base64.DecodeString s) = option_map forget (snd (Base64.DecodeString s)).
Proof.
  destruct (snd (Base64.DecodeString s)) as [err|] eqn:E; [|reflexivity].
  destruct (decode_error_kind _ _ _ _ _ _ E) as [off ->]. reflexivity.
Qed.

Section Revisions.
Context {L : Lib}.
Variable W : Type.
Variable tr : Transport W.
Variable r : Rest0.RestStorage.

Definition forget_reply (rep : reply) : reply :=
  match rep with
  | Done e => Done (option_map forget e)
  | Bytes v e => Bytes v (option_map forget e)
  | Bool b => Bool b
  | Keys l e => Keys l (option_map forget e)
  | Info i e => Info i (option_map forget e)
  end.

Lemma run_bind_bind (A B R : Type) (k1 : A -> itree httpE B)
      (k2 : B -> itree httpE R) (fuel : nat) :
  forall (t : itree httpE A) (w : W),
    run tr fuel (ITree.bind (ITree.bind t k1) k2) w =
    run tr fuel (ITree.bind t (fun x => ITree.bind (k1 x) k2)) w.
Proof.
  induction fuel as [|fuel IH]; intros t w; [reflexivity|].
  cbn -[ITree.bind]. rewrite !observe_bind.
  destruct (observe t) as [a|t'|X e k]; cbn -[ITree.bind].
  - rewrite observe_bind. reflexivity.
  - apply IH.
  - destruct e as [[cl|] req]; [|reflexivity].
    destruct (tr req w) as [out w1].
    rewrite IH. reflexivity.
Qed.

(** [http.Post] sends the request that [NewRequestWithContext] builds for
    the background context, with the content type as its only header. *)
Lemma run_http_Post (R : Type) (url body : string)
      (k : Response + error -> itree httpE R) (fuel : nat) (w : W) :
  run tr (S fuel)
      (ITree.bind (Rest0.http_Post url "application/json" body) k) w =
  match NewRequestWithContext Background "POST" url body with
  | inr err => run tr (S fuel) (k (inr err)) w
  | inl req =>
      let sent := Header_Add req "Content-Type" "application/json" in
      let '(out, w1) := tr sent w in
      let '(res, w2, log) :=
        run tr fuel (k match out with
                       | inl resp => inl resp
                       | inr err => inr (UrlError err)
                       end) w1 in
      (res, w2, {| before := w; sent := sent; got := out |} :: log)
  end.
Proof.
  unfold Rest0.http_Post, NewRequestWithContext.
  destruct (url_Parse url) as [msg|].
  - apply run_bind_Ret.
  - rewrite run_bind_bind, run_Do. cbv zeta.
    change (Rest0.Header_Set _ _ _) with
      (Header_Add {| Method := "POST"; URL := url; Ctx := Background;
                     Header := []; Body := body |}
                  "Content-Type" "application/json").
    destruct (tr _ w) as [out w1].
    destruct out as [resp|err]; rewrite run_bind_Ret; reflexivity.
Qed.

Lemma forget_unknown_status (code : Z) :
  forget (unknown_status code) = Rest0.unknown_status.
Proof. reflexivity. Qed.

Ltac one_post fuel :=
  unfold shot, request, upgraded; cbn [Endpoint Token];
  destruct fuel as [|fuel]; [reflexivity|];
  destruct (json_Marshal _); [|reflexivity];
  rewrite run_http_Post;
  destruct (NewRequestWithContext _ _ _ _); [|reflexivity];
  cbv zeta;
  let out := fresh "out" in
  let w1 := fresh "w" in
  match goal with |- context [let '(_, _) := ?tr ?req ?w in _] =>
    destruct (tr req w) as [out w1] end;
  destruct fuel as [|fuel]; [reflexivity|];
  destruct out as [? | ?]; cbn -[Base64.DecodeString unknown_status];
  [|reflexivity].

Lemma Unlock0_run (key : string) (fuel : nat) (w : W) :
  run tr fuel (Rest0.Unlock r key) w =
  shot W tr fuel w (request (upgraded r) Background "unlock" (UnlockRequest key (Token (upgraded r))))
       Some (fun out => option_map forget (Unlock_reply out)).
Proof.
  unfold Rest0.Unlock, Unlock_reply. one_post fuel. branches; reflexivity.
Qed.

Lemma Store0_run (key : string) (value : list byte) (fuel : nat) (w : W) :
  run tr fuel (Rest0.Store r key value) w =
  shot W tr fuel w
       (request (upgraded r) Background "store"
                (StoreRequest key (Base64.EncodeToString value) (Token (upgraded r))))
       Some (fun out => option_map forget (Store_reply out)).
Proof.
  unfold Rest0.Store, Store_reply. one_post fuel. branches; reflexivity.
Qed.

Lemma Load0_run (key : string) (fuel : nat) (w : W) :
  run tr fuel (Rest0.Load r key) w =
  shot W tr fuel w (request (upgraded r) Background "load" (LoadRequest key (Token (upgraded r))))
       (fun err => ([], Some err))
       (fun out => (fst (Load_reply out), option_map forget (snd (Load_reply out)))).
Proof.
  unfold Rest0.Load, Load_reply. one_post fuel.
  destruct (StatusCode _ =? 404) eqn:E404.
  { apply Z.eqb_eq in E404. rewrite E404. reflexivity. }
  destruct (negb (StatusCode _ =? 200)); [reflexivity|].
  unfold Decode. destruct (decode_LoadResponse _) as [loadResp|msg]; [|reflexivity].
  pose proof (forget_DecodeString (LoadResponse_Value loadResp)) as F.
  destruct (Base64.DecodeString _) as [v [e|]]; [|reflexivity].
  cbn in F. cbn. rewrite <- F. reflexivity.
Qed.

Lemma Delete0_run (key : string) (fuel : nat) (w : W) :
  run tr fuel (Rest0.Delete r key) w =
  shot W tr fuel w (request (upgraded r) Background "delete" (DeleteRequest key (Token (upgraded r))))
       Some (fun out => option_map forget (Delete_reply out)).
Proof.
  unfold Rest0.Delete, Delete_reply. one_post fuel.
  destruct (StatusCode _ =? 404) eqn:E404.
  { apply Z.eqb_eq in E404. rewrite E404. reflexivity. }
  branches; reflexivity.
Qed.

Lemma Exists0_run (key : string) (fuel : nat) (w : W) :
  run tr fuel (Rest0.Exists r key) w =
  shot W tr fuel w (request (upgraded r) Background "exists" (ExistsRequest key (Token (upgraded r))))
       (fun _ => false) Exists_reply.
Proof.
  unfold Rest0.Exists, Exists_reply. one_post fuel. branches; reflexivity.
Qed.

Lemma List0_run (prefix : string) (recursive : bool) (fuel : nat) (w : W) :
  run tr fuel (Rest0.List r prefix recursive) w =
  shot W tr fuel w
       (request (upgraded r) Background "list" (ListRequest prefix recursive (Token (upgraded r))))
       (fun err => ([], Some err))
       (fun out => (fst (List_reply out), option_map forget (snd (List_reply out)))).
Proof.
  unfold Rest0.List, List_reply. one_post fuel.
  destruct (StatusCode _ =? 404) eqn:E404.
  { apply Z.eqb_eq in E404. rewrite E404. reflexivity. }
  destruct (negb (StatusCode _ =? 200)); [reflexivity|].
  unfold Decode. destruct (decode_ListResponse _); reflexivity.
Qed.

Lemma Stat0_run (key : string) (fuel : nat) (w : W) :
  run tr fuel (Rest0.Stat r key) w =
  shot W tr fuel w (request (upgraded r) Background "stat" (StatRequest key (Token (upgraded r))))
       (fun err => (KeyInfo_zero, Some err))
       (fun out => (fst (Stat_reply out), option_map forget (snd (Stat_reply out)))).
Proof.
  unfold Rest0.Stat, Stat_reply. one_post fuel.
  destruct (StatusCode _ =? 404) eqn:E404.
  { apply Z.eqb_eq in E404. rewrite E404. reflexivity. }
  destruct (negb (StatusCode _ =? 200)); [reflexivity|].
  unfold Decode. destruct (decode_StatResponse _) as [statResp|msg]; [|reflexivity].
  unfold time_Parse. destruct (parse_time _ _); reflexivity.
Qed.

Lemma run_iter (I R : Type) (f : I -> itree httpE (I + R)) (i : I)
      (fuel : nat) (w : W) :
  run tr fuel (ITree.iter f i) w =
  run tr fuel (ITree.bind (f i)
                 (fun lr => ITree.on_left lr l (Tau (ITree.iter f l)))) w.
Proof. apply run_observe. reflexivity. Qed.

Definition Lock0_reply (out : outcome) : unit + option error :=
  match Lock_reply out with
  | inl u => inl u
  | inr e => inr (option_map forget e)
  end.

Lemma Lock0_run (ctx : Context) (key : string) (fuel : nat) :
  forall w,
    run tr fuel (Rest0.Lock r ctx key) w =
    match request (upgraded r) Background "lock" (LockRequest key (Token (upgraded r))) with
    | inr err => (match fuel with O => None | S _ => Some (Some err) end, w, [])
    | inl req => polls W tr Lock0_reply fuel w req
    end.
Proof.
  unfold Rest0.Lock, request, upgraded. cbn [Endpoint Token].
  destruct (json_Marshal _) as [body|err]; [|destruct fuel; reflexivity].
  induction fuel as [fuel IH] using lt_wf_ind. intros w.
  destruct fuel as [|fuel].
  { destruct (NewRequestWithContext _ _ _ _); reflexivity. }
  rewrite run_iter, run_bind_bind, run_http_Post.
  destruct (NewRequestWithContext _ _ _ _) as [req|err] eqn:Ereq;
    [|rewrite run_bind_Ret; reflexivity].
  cbv zeta. cbn [polls].
  destruct (tr _ w) as [out w1].
  destruct fuel as [|fuel]; [reflexivity|].
  unfold Lock0_reply, Lock_reply.
  destruct out as [resp|e]; [|rewrite run_bind_Ret; reflexivity].
  destruct (StatusCode resp =? 201); [rewrite run_bind_Ret; reflexivity|].
  destruct (negb (StatusCode resp =? 412)); rewrite run_bind_Ret;
    [reflexivity|].
  cbn -[ITree.iter polls].
  rewrite IH by lia. reflexivity.
Qed.

Lemma polls_ext (R : Type) (reply1 reply2 : outcome -> unit + R)
      (req : Request) :
  (forall out, reply1 out = reply2 out) ->
  forall fuel w, polls W tr reply1 fuel w req = polls W tr reply2 fuel w req.
Proof.
  intros E fuel. induction fuel as [fuel IH] using lt_wf_ind. intros w.
  destruct fuel as [|[|fuel]]; [reflexivity|reflexivity|].
  cbn. destruct (tr req w) as [out w1]. rewrite E.
  destruct (reply2 out); [|reflexivity]. rewrite IH by lia. reflexivity.
Qed.


(** The earlier revision through the interface, in the reading of
    [Shape]: the request is the one of the present revision for the
    background context. *)
Lemma invoke0_run (ctx : Context) (c : call) (fuel : nat) (w : W) :
  run tr fuel (Rest0.invoke r ctx c) w =
  match request (upgraded r) Background (op_name c) (payload (upgraded r) c) with
  | inr err =>
      (match fuel with O => None | S _ => Some (failure c err) end, w, [])
  | inl req =>
      polls W tr (fun out => match answer c out with
                             | inl u => inl u
                             | inr rep => inr (forget_reply rep)
                             end) fuel w req
  end.
Proof.
  destruct c; cbn [Rest0.invoke op_name payload failure answer];
    rewrite run_map;
    rewrite ?Lock0_run, ?Unlock0_run, ?Store0_run, ?Load0_run, ?Delete0_run,
            ?Exists0_run, ?List0_run, ?Stat0_run;
    match goal with |- context [request ?a ?b ?c ?d] =>
      destruct (request a b c d) as [req|err] end;
    try (destruct fuel; reflexivity);
    rewrite ?shot_polls;
    try (rewrite polls_map; reflexivity).
  rewrite polls_map. apply polls_ext. intros out. unfold Lock0_reply.
  destruct (Lock_reply out); reflexivity.
Qed.




End Revisions.
End Rest0Shape.

Module StatusFacts.
Import Http Go Rest Storage Shape RunShape PollsFacts ShotFacts InterfaceFacts
       Rest0Shape.

Section Status.
Context {L : Lib}.
Variable W : Type.
Variable tr : Transport W.
Variables (r : RestStorage) (ctx : Context).






End Status.

#[local] Existing Instance Sim.lib.

Definition not_found : Sim.World := Sim.world [Sim.status 404 EmptyString].



(** C6 as stated fails in the revision of [part_000], which the claim
    cites: there [Load] answers a 404 with the error of every unexpected
    status, which is not [fs.ErrNotExist]. *)
Lemma Load_of_part_000_on_404 :
  exists w' x,
    run Sim.transport 2 (Rest0.Load Sim.r0_before "k") not_found
    = (Some ([], Some (errorString "Unknown status code received")), w', [x]) /\
    status_of x = Some 404 /\
    Some (errorString "Unknown status code received") <> Some ErrNotExist.
Proof.
  do 2 eexists. split; [reflexivity|]. split; [reflexivity|discriminate].
Qed.




(** In the revision of [part_000] the status cannot be told from the
    error: 500 and 503 give the same one. *)
Example Store_of_part_000_on_500_and_503 :
  fst (fst (run Sim.transport 2 (Rest0.Store Sim.r0_before "k" [x68; x69])
                (Sim.world [Sim.status 500 EmptyString])))
  = Some (Some (errorString "Unknown status code received")) /\
  fst (fst (run Sim.transport 2 (Rest0.Store Sim.r0_before "k" [x68; x69])
                (Sim.world [Sim.status 503 EmptyString])))
  = Some (Some (errorString "Unknown status code received")).
Proof. split; reflexivity. Qed.

End StatusFacts.

(** ** [time.Parse] against RFC 3339 *)

Module TimeFacts.
Import Text Calendar.

#[local] Notation "'do' x <- e ; k" :=
  (match e with Some x => k | None => None end)
  (at level 10, x pattern, e at level 100, k at level 200, only parsing).















End TimeFacts.

(** ** The timestamp of [Stat] *)

Module StatFacts.
Import Http Go Rest Shape RunShape ShotFacts.

Section Stat.
Context {L : Lib}.
Variable W : Type.
Variable tr : Transport W.
Variables (r : RestStorage) (ctx : Context).


End Stat.

#[local] Existing Instance Sim.lib.

Definition answered (modified : string) : Sim.World :=
  Sim.world [Sim.status 200
               (Sim.stat_body "certs/example.com" modified "1704" "true")].

Definition stat_of (modified : string) : option (KeyInfo * option error) :=
  fst (fst (run Sim.transport 2 (Stat Sim.r0 (Caller 1) "certs/example.com")
                (answered modified))).

Definition info_at (unix nsec offset : Z) : KeyInfo :=
  {| Key := "certs/example.com";
     Modified := {| GoTime.unix := unix; GoTime.nsec := nsec;
                    GoTime.offset := offset |};
     Size := 1704;
     IsTerminal := true |}.


(** C8 as stated fails in both halves. A comma before the fraction, an
    hour of one digit and an offset of 24 hours are outside the grammar of
    RFC 3339, and [time.Parse] reads them: [Stat] returns a timestamp and
    no error. The leap second [1990-12-31T23:59:60Z], which RFC 3339
    gives as an example of a valid date-time, is rejected: [Stat] returns
    an error. *)
Lemma Stat_reads_more_and_less_than_RFC3339 :
  RFC3339.instant_of "2023-05-01T12:00:00,5Z" = None /\
  stat_of "2023-05-01T12:00:00,5Z"
  = Some (info_at 1682942400 500000000 0, None) /\
  RFC3339.instant_of "2023-05-01T1:00:00Z" = None /\
  stat_of "2023-05-01T1:00:00Z" = Some (info_at 1682902800 0 0, None) /\
  RFC3339.instant_of "2023-05-01T12:00:00+24:00" = None /\
  stat_of "2023-05-01T12:00:00+24:00"
  = Some (info_at 1682856000 0 86400, None) /\
  stat_of "1990-12-31T23:59:60Z"
  = Some (KeyInfo_zero, Some (ParseError RFC3339 "1990-12-31T23:59:60Z")).
Proof. repeat split. Qed.

Example Stat_timestamps :
  stat_of "2023-05-01T12:00:00Z" = Some (info_at 1682942400 0 0, None) /\
  stat_of "2021-01-01T00:00:00Z" = Some (info_at 1609459200 0 0, None) /\
  stat_of "2023-05-01T14:00:00.25+02:00"
  = Some (info_at 1682942400 250000000 7200, None) /\
  stat_of "2023-05-01 12:00:00"
  = Some (KeyInfo_zero, Some (ParseError RFC3339 "2023-05-01 12:00:00")) /\
  stat_of "yesterday"
  = Some (KeyInfo_zero, Some (ParseError RFC3339 "yesterday")) /\
  stat_of "2023-02-30T12:00:00Z"
  = Some (KeyInfo_zero, Some (ParseError RFC3339 "2023-02-30T12:00:00Z")) /\
  stat_of "2023-05-01t12:00:00z"
  = Some (KeyInfo_zero, Some (ParseError RFC3339 "2023-05-01t12:00:00z")) /\
  stat_of "2023-05-01T12:00:00+25:00"
  = Some (KeyInfo_zero, Some (ParseError RFC3339 "2023-05-01T12:00:00+25:00")) /\
  stat_of "0001-01-01T00:00:00Z" = Some (info_at (-62135596800) 0 0, None) /\
  Modified KeyInfo_zero = Modified (info_at (-62135596800) 0 0).
Proof. repeat split. Qed.

End StatFacts.

(** ** Unlock *)

Module UnlockFacts.
Import Http Go Rest Shape RunShape ShotFacts.

Section Unlock.
Context {L : Lib}.
Variable W : Type.
Variable tr : Transport W.
Variables (r : RestStorage) (ctx : Context).


End Unlock.

#[local] Existing Instance Sim.lib.



Example Unlock_examples :
  let call answers :=
    run Sim.transport 5 (Unlock Sim.r0 (Caller 1) "k") (Sim.world answers) in
  fst (fst (call [Sim.status 204 EmptyString])) = Some None /\
  fst (fst (call [Sim.status 412 EmptyString; Sim.status 204 EmptyString]))
    = Some (Some (unknown_status 412)) /\
  List.length (snd (call [Sim.status 412 EmptyString; Sim.status 204 EmptyString]))
    = 1%nat /\
  fst (fst (call [])) =
    Some (Some (UrlError {| Op := "Post"; Url := "https://kv.example/unlock";
                            Err := NetError "connection refused" |})).
Proof. repeat split. Qed.

End UnlockFacts.

(** ** Lock: the polling protocol *)

Module LockFacts.
Import Http Go Rest Shape RunShape ShotFacts PollsFacts.

Lemma Lock_reply_again (out : outcome) (u : unit) :
  Lock_reply out = inl u ->
  exists resp, out = inl resp /\ StatusCode resp = 412.
Proof.
  unfold Lock_reply. destruct out as [resp|e]; [|discriminate].
  destruct (Z.eqb_spec (StatusCode resp) 201); [discriminate|].
  destruct (Z.eqb_spec (StatusCode resp) 412); [eauto|discriminate].
Qed.

Lemma Lock_reply_success (out : outcome) :
  Lock_reply out = inr None ->
  exists resp, out = inl resp /\ StatusCode resp = 201.
Proof.
  unfold Lock_reply. destruct out as [resp|e]; [|discriminate].
  destruct (Z.eqb_spec (StatusCode resp) 201); [eauto|].
  destruct (negb _); discriminate.
Qed.

Section Lock.
Context {L : Lib}.
Variable W : Type.
Variable tr : Transport W.
Variables (r : RestStorage) (ctx : Context).

(** C1. Take any execution of [Lock], finished or cut off after [fuel]
    steps. Every call it made is the POST to [<endpoint>lock], and every
    call but the last was answered 412. It returns nil only after a 201.
    After the last answer received so far: on a 201 it returns nil at its
    next step; on a 412 it has not returned and, two steps on, has made
    exactly one more call, the same request, from the world the 412 left;
    on any other status it returns the unexpected-status error at its
    next step, and on a transport failure that failure, in both cases
    without another call. When nothing was sent and it returned, the
    request could not be built. *)
Theorem Lock_protocol (key : string) (fuel : nat) (w w' : W)
        (res : option (option error)) (log : list (Exchange W)) :
  run tr fuel (Lock r ctx key) w = (res, w', log) ->
  Forall (fun x => Method (sent x) = "POST" /\
                   URL (sent x) = String.append (Endpoint r) "lock") log /\
  Forall (fun x => status_of x = Some 412) (removelast log) /\
  (res = Some None ->
   exists x, last_exchange log = Some x /\ status_of x = Some 201) /\
  (forall x, last_exchange log = Some x ->
     match got x with
     | inr e =>
         run tr (S fuel) (Lock r ctx key) w = (Some (Some (UrlError e)), w', log)
     | inl resp =>
         if StatusCode resp =? 201 then
           run tr (S fuel) (Lock r ctx key) w = (Some None, w', log)
         else if StatusCode resp =? 412 then
           res = None /\
           exists res' w'' x',
             run tr (S (S fuel)) (Lock r ctx key) w = (res', w'', log ++ [x']) /\
             before x' = w' /\ sent x' = sent x
         else
           run tr (S fuel) (Lock r ctx key) w =
           (Some (Some (unknown_status (StatusCode resp))), w', log)
     end) /\
  (log = [] -> forall rep, res = Some rep ->
   exists err,
     request r ctx "lock" (LockRequest key (Token r)) = inr err /\
     rep = Some err).
Proof.
  rewrite !Lock_run.
  destruct (request r ctx "lock" (LockRequest key (Token r))) as [req|err] eqn:Ereq.
  - destruct (client r) as [cl|] eqn:Hcl.
    2:{ rewrite !reach_nil by exact Hcl. intros [= <- <- <-].
        repeat split; try constructor; discriminate. }
    rewrite !reach_client by congruence.
    intros H.
    destruct (polls_log W tr _ Lock_reply req fuel _ _ _ _ H) as (A & B & C).
    split; [|split; [|split; [|split]]].
    + eapply Forall_impl; [|exact A]. cbn. intros x [-> _].
      apply request_fields in Ereq. tauto.
    + eapply Forall_impl; [|exact B]. cbn. intros x (u & Hu).
      apply Lock_reply_again in Hu. destruct Hu as (resp & Hg & Hs).
      unfold status_of. rewrite Hg, Hs. reflexivity.
    + intros ->. destruct (C None eq_refl) as (x & Hx & Hr).
      exists x. split; [exact Hx|].
      apply Lock_reply_success in Hr. destruct Hr as (resp & Hg & Hs).
      unfold status_of. rewrite Hg, Hs. reflexivity.
    + intros x Hx.
      assert (Hsent : sent x = req).
      { apply last_exchange_In in Hx. rewrite Forall_forall in A.
        apply (A x Hx). }
      destruct (got x) as [resp|e] eqn:Hg.
      * destruct (StatusCode resp =? 201) eqn:E1.
        { eapply polls_settles; [exact H|exact Hx|].
          rewrite Hg. unfold Lock_reply. rewrite E1. reflexivity. }
        destruct (StatusCode resp =? 412) eqn:E2.
        { assert (Hu : Lock_reply (got x) = inl tt).
          { rewrite Hg. unfold Lock_reply. rewrite E1, E2. reflexivity. }
          destruct (polls_again W tr _ Lock_reply req fuel _ _ _ _ _ _ H Hx Hu)
            as (-> & res' & w'' & Hp).
          split; [reflexivity|].
          exists res', w''. eexists. split; [exact Hp|]. cbn. auto. }
        eapply polls_settles; [exact H|exact Hx|].
        rewrite Hg. unfold Lock_reply. rewrite E1, E2. reflexivity.
      * eapply polls_settles; [exact H|exact Hx|]. rewrite Hg. reflexivity.
    + intros -> rep ->. destruct (C rep eq_refl) as (x & [=] & _).
  - intros [= <- <- <-].
    split; [constructor|]. split; [constructor|].
    split; [destruct fuel; discriminate|]. split; [discriminate|].
    intros _ rep Hrep. exists err. split; [reflexivity|].
    destruct fuel; [discriminate|]. injection Hrep as <-. reflexivity.
Qed.




End Lock.

#[local] Existing Instance Sim.lib.

Definition refusals_then_created : list (Response + url_Error) :=
  [Sim.status 412 EmptyString; Sim.status 412 EmptyString;
   Sim.status 201 EmptyString].

(** Cut off right after the second refusal, [Lock] has not returned and
    its next call is on its way. *)
Lemma Lock_protocol_witness :
  fst (fst (run Sim.transport 4 (Lock Sim.r0 (Caller 1) "k")
                (Sim.world refusals_then_created))) = None /\
  exists res' w'' x',
    run Sim.transport 6 (Lock Sim.r0 (Caller 1) "k")
        (Sim.world refusals_then_created)
    = (res', w'',
       snd (run Sim.transport 4 (Lock Sim.r0 (Caller 1) "k")
                (Sim.world refusals_then_created)) ++ [x']) /\
    Sim.now (before x') = 2.
Proof.
  pose proof (Lock_protocol Sim.World Sim.transport Sim.r0 (Caller 1) "k" 4
                (Sim.world refusals_then_created) _ _ _ eq_refl)
    as (_ & _ & _ & H & _).
  specialize (H _ eq_refl). cbn in H.
  destruct H as (Hres & res' & w'' & x' & Hrun & Hb & _).
  split; [exact Hres|].
  exists res', w'', x'. split; [exact Hrun|]. rewrite Hb. reflexivity.
Defined.

Example Lock_examples :
  let call fuel answers :=
    run Sim.transport fuel (Lock Sim.r0 (Caller 1) "k") (Sim.world answers) in
  fst (fst (call 6%nat refusals_then_created)) = Some None /\
  List.length (snd (call 6%nat refusals_then_created)) = 3%nat /\
  fst (fst (call 4%nat refusals_then_created)) = None /\
  fst (fst (call 9%nat [Sim.status 412 EmptyString; Sim.status 500 EmptyString;
                        Sim.status 201 EmptyString]))
    = Some (Some (unknown_status 500)) /\
  List.length (snd (call 9%nat [Sim.status 412 EmptyString;
                                Sim.status 500 EmptyString;
                                Sim.status 201 EmptyString])) = 2%nat /\
  fst (fst (call 9%nat [Sim.status 200 EmptyString]))
    = Some (Some (unknown_status 200)) /\
  fst (fst (run Sim.transport 9
              (Lock {| Endpoint := "https://kv example/"; Token := "t";
                       client := Some Client_zero |}
                    (Caller 1) "k")
              (Sim.world refusals_then_created)))
    = Some (Some (RequestError "invalid character in host name")).
Proof. repeat split. Qed.

End LockFacts.

(** ** Cancellation *)

Module CancelFacts.
Import Http Go Rest Storage Shape RunShape ShotFacts PollsFacts InterfaceFacts.

Section Cancel.
Context {L : Lib}.
Variable W : Type.
Variable tr : Transport W.
Variables (r : RestStorage) (ctx : Context).

(** [ctx.Err()] in a world: the reason the context is done, if it is. *)
Variable done : W -> Context -> option cause.

(** The HTTP client fails, with the context's reason, a call whose context
    is done by the time the call ends, whether it was done before the
    call or became so while the call was in flight, as [http.Client.Do]
    does. *)
Hypothesis honours :
  forall req w cs, done (snd (tr req w)) (Ctx req) = Some cs ->
                   exists e, fst (tr req w) = inr e /\ Err e = cs.

(** A context that is done stays done, for the same reason. *)
Hypothesis lasting :
  forall req w c cs, done w c = Some cs -> done (snd (tr req w)) c = Some cs.


End Cancel.

#[local] Existing Instance Sim.lib.



(** A key held for good, and a caller whose deadline passes during the
    third call. *)
Definition held_for_good : Sim.World :=
  {| Sim.now := 0;
     Sim.deadlines := [(1%nat, 3)];
     Sim.script := repeat (Sim.status 412 EmptyString) 50 |}.

Definition third_call : Exchange Sim.World :=
  {| before := {| Sim.now := 2; Sim.deadlines := [(1%nat, 3)];
                  Sim.script := repeat (Sim.status 412 EmptyString) 48 |};
     sent := {| Method := "POST"; URL := "https://kv.example/lock";
                Ctx := Caller 1;
                Header := [("Content-Type", "application/json")];
                Body := Sim.render (LockRequest "k" "s3cret") |};
     got := inr {| Op := "Post"; Url := "https://kv.example/lock";
                   Err := DeadlineExceeded |} |}.


(** A call started after the deadline: one failed call, then the error. *)
Example Load_after_the_deadline :
  run Sim.transport 2 (invoke Sim.r0 (Caller 1) (CallLoad "k"))
      {| Sim.now := 5; Sim.deadlines := [(1%nat, 3)];
         Sim.script := [Sim.status 200 (Sim.load_body "aGk=")] |}
  = (Some (Bytes [] (Some (UrlError {| Op := "Post";
                                       Url := "https://kv.example/load";
                                       Err := DeadlineExceeded |}))),
     {| Sim.now := 6; Sim.deadlines := [(1%nat, 3)];
        Sim.script := [Sim.status 200 (Sim.load_body "aGk=")] |},
     [{| before := {| Sim.now := 5; Sim.deadlines := [(1%nat, 3)];
                      Sim.script := [Sim.status 200 (Sim.load_body "aGk=")] |};
         sent := {| Method := "POST"; URL := "https://kv.example/load";
                    Ctx := Caller 1;
                    Header := [("Content-Type", "application/json")];
                    Body := Sim.render (LoadRequest "k" "s3cret") |};
         got := inr {| Op := "Post"; Url := "https://kv.example/load";
                       Err := DeadlineExceeded |} |}]).
Proof. reflexivity. Qed.


End CancelFacts.

(** ** The revision before contexts

    What [src/unnamed/part_000] does where it differs from [rest.go]. *)

Module Rest0Facts.
Import Http Go.

#[local] Existing Instance Sim.lib.

Definition expired : Sim.World :=
  {| Sim.now := 5;
     Sim.deadlines := [(1%nat, 2)];
     Sim.script := [Sim.status 412 EmptyString; Sim.status 201 EmptyString] |}.

(** [Lock] takes a context and does not use it: its requests carry the
    background context, so a caller whose context is done is still served. *)
Example Lock0_ignores_the_context :
  Sim.ctx_err expired (Caller 1) = Some DeadlineExceeded /\
  fst (fst (run Sim.transport 9 (Rest0.Lock Sim.r0_before (Caller 1) "k") expired))
    = Some None /\
  List.map (fun x => Ctx (sent x))
      (snd (run Sim.transport 9 (Rest0.Lock Sim.r0_before (Caller 1) "k") expired))
    = [Background; Background] /\
  fst (fst (run Sim.transport 9 (Rest.Lock Sim.r0 (Caller 1) "k") expired))
    = Some (Some (UrlError {| Op := "Post"; Url := "https://kv.example/lock";
                              Err := DeadlineExceeded |})).
Proof. repeat split. Qed.

(** A 404 is an unknown status like any other, and the error does not say
    which status it was. *)
Example Load0_on_404 :
  fst (fst (run Sim.transport 3 (Rest0.Load Sim.r0_before "k")
                (Sim.world [Sim.status 404 EmptyString])))
    = Some ([], Some (errorString "Unknown status code received")) /\
  fst (fst (run Sim.transport 3 (Rest.Load Sim.r0 (Caller 1) "k")
                (Sim.world [Sim.status 404 EmptyString])))
    = Some ([], Some ErrNotExist).
Proof. repeat split. Qed.

Example Store0_on_500_and_503 :
  fst (fst (run Sim.transport 3 (Rest0.Store Sim.r0_before "k" [x68; x69])
                (Sim.world [Sim.status 500 EmptyString])))
  = fst (fst (run Sim.transport 3 (Rest0.Store Sim.r0_before "k" [x68; x69])
                  (Sim.world [Sim.status 503 EmptyString]))) /\
  fst (fst (run Sim.transport 3 (Rest0.Store Sim.r0_before "k" [x68; x69])
                (Sim.world [Sim.status 500 EmptyString])))
  = Some (Some (errorString "Unknown status code received")).
Proof. repeat split. Qed.

Example Unlock0_on_404 :
  fst (fst (run Sim.transport 3 (Rest0.Unlock Sim.r0_before "k")
                (Sim.world [Sim.status 404 EmptyString])))
  = Some (Some (errorString "Unknown status code received")).
Proof. repeat split. Qed.

(** Decoding is the same in both revisions. *)
Example Load0_value :
  fst (fst (run Sim.transport 3 (Rest0.Load Sim.r0_before "k")
                (Sim.world [Sim.status 200 (Sim.load_body "/wDDKIA=")])))
  = Some ([xff; x00; xc3; x28; x80], None).
Proof. reflexivity. Qed.

End Rest0Facts.

(* ================================================================== *)
(** * Further properties of the adapter *)

(** ** What goes over the wire *)

Module WireFacts.
Import Http Go Rest Storage Shape RunShape ShotFacts PollsFacts InterfaceFacts.

Section Wire.
Context {L : Lib}.
Variable W : Type.
Variable tr : Transport W.
Variables (r : RestStorage) (ctx : Context).

Lemma payload_token (c : call) :
  In ("token", JString (Token r)) (payload r c).
Proof. destruct c; cbn; auto 6. Qed.

(** X1. Whatever the method, every call it makes is a POST to the
    endpoint followed by the operation's name, with the single header
    [Content-Type: application/json], and its body is the marshalled
    request record of the method, which holds the adapter's token. *)
Theorem every_call_is_a_json_POST (c : call) (fuel : nat) (w w' : W)
        (res : option reply) (log : list (Exchange W)) (x : Exchange W) :
  run tr fuel (invoke r ctx c) w = (res, w', log) ->
  In x log ->
  Method (sent x) = "POST" /\
  URL (sent x) = String.append (Endpoint r) (op_name c) /\
  Header (sent x) = [("Content-Type", "application/json")] /\
  json_Marshal (payload r c) = inl (Body (sent x)) /\
  In ("token", JString (Token r)) (payload r c).
Proof.
  rewrite invoke_run.
  destruct (request r ctx (op_name c) (payload r c)) as [req|err] eqn:Ereq.
  - intros H Hin.
    destruct (polls_log W tr _ (answer c) req _ _ _ _ _ H) as (A & _ & _).
    rewrite Forall_forall in A. destruct (A x Hin) as [-> _].
    apply request_fields in Ereq.
    destruct Ereq as (Hm & Hu & _ & Hh & Hb).
    repeat split; auto. apply payload_token.
  - intros [= <- <- <-] [].
Qed.

(** X2. Only [Lock] retries: every other method makes at most one call,
    whatever it is answered, and when it has returned after a call its
    reply is the one read from that call's outcome. *)
Theorem only_Lock_retries (c : call) (fuel : nat) (w w' : W)
        (res : option reply) (log : list (Exchange W)) :
  (forall key, c <> CallLock key) ->
  run tr fuel (invoke r ctx c) w = (res, w', log) ->
  (List.length log <= 1)%nat /\
  forall rep x, res = Some rep -> log = [x] ->
                answer c (got x) = inr rep /\
                tr (sent x) w = (got x, w').
Proof.
  intros Hc Hrun. split; [eapply invoke_one_call; eassumption|].
  intros rep x -> ->. rewrite invoke_run in Hrun.
  destruct (request r ctx (op_name c) (payload r c)) as [req|err].
  - destruct (client r) eqn:Hcl;
      [rewrite reach_client in Hrun by congruence
      |rewrite reach_nil in Hrun by exact Hcl; discriminate].
    destruct fuel as [|[|fuel]]; cbn in Hrun.
    + discriminate.
    + destruct (tr req w); discriminate.
    + destruct (tr req w) as [out w1] eqn:E.
      destruct (answer c out) as [u|rep0] eqn:Ea.
      * apply answer_again in Ea. destruct Ea as ((key & ->) & _).
        exfalso. exact (Hc key eq_refl).
      * injection Hrun as <- <- <-. cbn. rewrite E. auto.
  - destruct fuel; discriminate.
Qed.

End Wire.

#[local] Existing Instance Sim.lib.

Lemma every_call_is_a_json_POST_witness :
  Method (sent CancelFacts.third_call) = "POST" /\
  URL (sent CancelFacts.third_call) = "https://kv.example/lock" /\
  Header (sent CancelFacts.third_call) = [("Content-Type", "application/json")] /\
  json_Marshal (payload Sim.r0 (CallLock "k"))
  = inl (Body (sent CancelFacts.third_call)) /\
  In ("token", JString "s3cret") (payload Sim.r0 (CallLock "k")).
Proof.
  exact (every_call_is_a_json_POST Sim.World Sim.transport Sim.r0 (Caller 1)
           (CallLock "k") 40 CancelFacts.held_for_good _ _ _
           CancelFacts.third_call eq_refl
           (or_intror (or_intror (or_introl eq_refl)))).
Defined.

Lemma Load_is_not_Lock (key : string) : CallLoad "k" <> CallLock key.
Proof. discriminate. Qed.

Lemma only_Lock_retries_witness :
  (List.length
     (snd (run Sim.transport 9 (invoke Sim.r0 (Caller 1) (CallLoad "k"))
               (Sim.world [Sim.status 412 EmptyString;
                           Sim.status 200 (Sim.load_body "aGk=")]))) <= 1)%nat.
Proof.
  exact (proj1 (only_Lock_retries Sim.World Sim.transport Sim.r0 (Caller 1)
                  (CallLoad "k") 9
                  (Sim.world [Sim.status 412 EmptyString;
                              Sim.status 200 (Sim.load_body "aGk=")])
                  _ _ _ Load_is_not_Lock eq_refl)).
Defined.

End WireFacts.

(** ** What each operation returns *)

Module ResultFacts.
Import Http Go Rest Shape RunShape ShotFacts.

Section Results.
Context {L : Lib}.
Variable W : Type.
Variable tr : Transport W.
Variables (r : RestStorage) (ctx : Context).

(** X3. A finished [Store] returns nil exactly when its call was answered
    with status 201; a 200 or a 204 is an error like any other status. *)
Theorem Store_succeeds_on_201_only (key : string) (value : list byte)
        (fuel : nat) (w w' : W) (rep : option error) (log : list (Exchange W)) :
  run tr fuel (Store r ctx key value) w = (Some rep, w', log) ->
  (rep = None <-> exists x, log = [x] /\ status_of x = Some 201).
Proof.
  intros H. rewrite Store_run in H. apply shot_done in H.
  destruct H as [(err & _ & -> & -> & _)|(req & out & _ & _ & -> & ->)].
  - split; [discriminate|intros (x & [=] & _)].
  - unfold Store_reply, status_of. split.
    + destruct out as [resp|e]; [|discriminate].
      destruct (Z.eqb_spec (StatusCode resp) 201) as [Hs|Hs]; [|discriminate].
      intros _. eexists. split; [reflexivity|]. cbn. rewrite Hs. reflexivity.
    + intros (x & [= <-] & Hx). cbn in Hx.
      destruct out as [resp|e]; [|discriminate]. injection Hx as ->.
      reflexivity.
Qed.

(** X4. A finished [Delete] returns nil exactly when its call was
    answered with status 204. *)
Theorem Delete_succeeds_on_204_only (key : string) (fuel : nat) (w w' : W)
        (rep : option error) (log : list (Exchange W)) :
  run tr fuel (Delete r ctx key) w = (Some rep, w', log) ->
  (rep = None <-> exists x, log = [x] /\ status_of x = Some 204).
Proof.
  intros H. rewrite Delete_run in H. apply shot_done in H.
  destruct H as [(err & _ & -> & -> & _)|(req & out & _ & _ & -> & ->)].
  - split; [discriminate|intros (x & [=] & _)].
  - unfold Delete_reply, status_of. split.
    + destruct out as [resp|e]; [|discriminate].
      destruct (Z.eqb_spec (StatusCode resp) 404); [discriminate|].
      destruct (Z.eqb_spec (StatusCode resp) 204) as [Hs|Hs]; [|discriminate].
      intros _. eexists. split; [reflexivity|]. cbn. rewrite Hs. reflexivity.
    + intros (x & [= <-] & Hx). cbn in Hx.
      destruct out as [resp|e]; [|discriminate]. injection Hx as ->.
      reflexivity.
Qed.

(** X5. A finished [Load] returns bytes without an error exactly when its
    call was answered 200 with a body that decodes and whose [value] field
    is base64 text of those bytes. In every other case it returns an
    error and no bytes at all, also when base64 decoding failed half-way. *)
Theorem Load_returns_value_or_error (key : string) (fuel : nat) (w w' : W)
        (rep : list byte * option error) (log : list (Exchange W)) :
  run tr fuel (Load r ctx key) w = (Some rep, w', log) ->
  (snd rep = None <->
   exists x resp loadResp,
     log = [x] /\ got x = inl resp /\ StatusCode resp = 200 /\
     Decode decode_LoadResponse (RespBody resp) = inl loadResp /\
     Base64.DecodeString (LoadResponse_Value loadResp) = (fst rep, None)) /\
  (snd rep <> None -> fst rep = []).
Proof.
  intros H. rewrite Load_run in H. apply shot_done in H.
  destruct H as [(err & _ & -> & -> & _)|(req & out & _ & _ & -> & ->)].
  - cbn. split; [|reflexivity].
    split; [discriminate|intros (x & _ & _ & [=] & _)].
  - unfold Load_reply. destruct out as [resp|e].
    2:{ cbn. split; [|reflexivity].
        split; [discriminate|intros (x & resp & lr & [= <-] & [=] & _)]. }
    destruct (Z.eqb_spec (StatusCode resp) 404) as [H4|H4].
    { cbn. split; [|reflexivity].
      split; [discriminate|].
      intros (x & resp' & lr & [= <-] & [= <-] & Hs & _). lia. }
    destruct (Z.eqb_spec (StatusCode resp) 200) as [H2|H2]; cbn [negb].
    2:{ cbn. split; [|reflexivity].
        split; [discriminate|].
        intros (x & resp' & lr & [= <-] & [= <-] & Hs & _). contradiction. }
    destruct (Decode decode_LoadResponse (RespBody resp)) as [lr|err] eqn:Ed.
    2:{ cbn. split; [|reflexivity].
        split; [discriminate|].
        intros (x & resp' & lr & [= <-] & [= <-] & _ & Hd & _). congruence. }
    destruct (Base64.DecodeString (LoadResponse_Value lr)) as [v [err|]] eqn:Eb.
    + cbn. split; [|reflexivity].
      split; [discriminate|].
      intros (x & resp' & lr' & [= <-] & [= <-] & _ & Hd & Hb).
      rewrite Ed in Hd. injection Hd as <-. congruence.
    + cbn. split; [|congruence].
      split; [|reflexivity]. intros _.
      eexists _, resp, lr. repeat split; auto.
Qed.

(** X6. A finished [List] returns, without an error, exactly the keys of a
    decoded 200 response, in the order the remote gave them; in every
    other case it returns an error and no keys. *)
Theorem List_returns_keys_or_error (prefix : string) (recursive : bool)
        (fuel : nat) (w w' : W) (rep : list string * option error)
        (log : list (Exchange W)) :
  run tr fuel (List r ctx prefix recursive) w = (Some rep, w', log) ->
  (snd rep = None <->
   exists x resp listResp,
     log = [x] /\ got x = inl resp /\ StatusCode resp = 200 /\
     Decode decode_ListResponse (RespBody resp) = inl listResp /\
     fst rep = ListResponse_Keys listResp) /\
  (snd rep <> None -> fst rep = []).
Proof.
  intros H. rewrite List_run in H. apply shot_done in H.
  destruct H as [(err & _ & -> & -> & _)|(req & out & _ & _ & -> & ->)].
  - cbn. split; [|reflexivity].
    split; [discriminate|intros (x & _ & _ & [=] & _)].
  - unfold List_reply. destruct out as [resp|e].
    2:{ cbn. split; [|reflexivity].
        split; [discriminate|intros (x & resp & lr & [= <-] & [=] & _)]. }
    destruct (Z.eqb_spec (StatusCode resp) 404) as [H4|H4].
    { cbn. split; [|reflexivity].
      split; [discriminate|].
      intros (x & resp' & lr & [= <-] & [= <-] & Hs & _). lia. }
    destruct (Z.eqb_spec (StatusCode resp) 200) as [H2|H2]; cbn [negb].
    2:{ cbn. split; [|reflexivity].
        split; [discriminate|].
        intros (x & resp' & lr & [= <-] & [= <-] & Hs & _). contradiction. }
    destruct (Decode decode_ListResponse (RespBody resp)) as [lr|err] eqn:Ed.
    + cbn. split; [|congruence].
      split; [|reflexivity]. intros _.
      eexists _, resp, lr. repeat split; auto.
    + cbn. split; [|reflexivity].
      split; [discriminate|].
      intros (x & resp' & lr & [= <-] & [= <-] & _ & Hd & _). congruence.
Qed.

(** X7. A finished [Stat] returns a [KeyInfo] without an error exactly
    when its call was answered 200 with a body that decodes and a
    [modified] field that [time.Parse] accepts; whenever it returns an
    error the [KeyInfo] beside it is the zero value. *)
Theorem Stat_returns_info_or_error (key : string) (fuel : nat) (w w' : W)
        (rep : KeyInfo * option error) (log : list (Exchange W)) :
  run tr fuel (Stat r ctx key) w = (Some rep, w', log) ->
  (snd rep = None <->
   exists x resp statResp t,
     log = [x] /\ got x = inl resp /\ StatusCode resp = 200 /\
     Decode decode_StatResponse (RespBody resp) = inl statResp /\
     parse_time RFC3339 (StatResponse_Modified statResp) = Some t) /\
  (snd rep <> None -> fst rep = KeyInfo_zero).
Proof.
  intros H. rewrite Stat_run in H. apply shot_done in H.
  destruct H as [(err & _ & -> & -> & _)|(req & out & _ & _ & -> & ->)].
  - cbn. split; [|reflexivity].
    split; [discriminate|intros (x & _ & _ & _ & [=] & _)].
  - unfold Stat_reply. destruct out as [resp|e].
    2:{ cbn. split; [|reflexivity].
        split; [discriminate|intros (x & resp & lr & t & [= <-] & [=] & _)]. }
    destruct (Z.eqb_spec (StatusCode resp) 404) as [H4|H4].
    { cbn. split; [|reflexivity].
      split; [discriminate|].
      intros (x & resp' & lr & t & [= <-] & [= <-] & Hs & _). lia. }
    destruct (Z.eqb_spec (StatusCode resp) 200) as [H2|H2]; cbn [negb].
    2:{ cbn. split; [|reflexivity].
        split; [discriminate|].
        intros (x & resp' & lr & t & [= <-] & [= <-] & Hs & _). contradiction. }
    destruct (Decode decode_StatResponse (RespBody resp)) as [sr|err] eqn:Ed.
    2:{ cbn. split; [|reflexivity].
        split; [discriminate|].
        intros (x & resp' & lr & t & [= <-] & [= <-] & _ & Hd & _). congruence. }
    unfold time_Parse.
    destruct (parse_time RFC3339 (StatResponse_Modified sr)) as [t|] eqn:Et.
    + cbn. split; [|congruence].
      split; [|reflexivity]. intros _.
      eexists _, resp, sr, t. repeat split; auto.
    + cbn. split; [|reflexivity].
      split; [discriminate|].
      intros (x & resp' & lr & t & [= <-] & [= <-] & _ & Hd & Ht).
      rewrite Ed in Hd. injection Hd as <-. congruence.
Qed.

End Results.
End ResultFacts.

Module ResultWitnesses.
Import Http Go Rest Shape ResultFacts.

#[local] Existing Instance Sim.lib.

Lemma Store_succeeds_on_201_only_witness :
  fst (fst (run Sim.transport 2 (Store Sim.r0 (Caller 1) "k" [x68; x69])
                (Sim.world [Sim.status 201 EmptyString]))) = Some None.
Proof.
  exact (f_equal Some
           (proj2 (Store_succeeds_on_201_only Sim.World Sim.transport Sim.r0
                     (Caller 1) "k" [x68; x69] 2
                     (Sim.world [Sim.status 201 EmptyString]) _ _ _ eq_refl)
                  (ex_intro _ _ (conj eq_refl eq_refl)))).
Defined.

Lemma Delete_succeeds_on_204_only_witness :
  fst (fst (run Sim.transport 2 (Delete Sim.r0 (Caller 1) "k")
                (Sim.world [Sim.status 204 EmptyString]))) = Some None.
Proof.
  exact (f_equal Some
           (proj2 (Delete_succeeds_on_204_only Sim.World Sim.transport Sim.r0
                     (Caller 1) "k" 2
                     (Sim.world [Sim.status 204 EmptyString]) _ _ _ eq_refl)
                  (ex_intro _ _ (conj eq_refl eq_refl)))).
Defined.

(** A value cut short: base64 decodes three bytes and then fails, and
    [Load] hands over none of them. *)
Lemma Load_returns_value_or_error_witness :
  option_map fst
    (fst (fst (run Sim.transport 2 (Load Sim.r0 (Caller 1) "k")
                   (Sim.world [Sim.status 200 (Sim.load_body "aGVsbG8")]))))
  = Some [] /\
  Base64.DecodeString "aGVsbG8" = ([x68; x65; x6c], Some (CorruptInputError 4)).
Proof.
  pose proof (Load_returns_value_or_error Sim.World Sim.transport Sim.r0
                (Caller 1) "k" 2
                (Sim.world [Sim.status 200 (Sim.load_body "aGVsbG8")])
                _ ([], Some (CorruptInputError 4)) _ eq_refl) as [_ H].
  split; [|reflexivity].
  apply (f_equal Some). apply H. discriminate.
Defined.

Definition two_keys : string :=
  String.append "{"
    (String.append (Sim.q "keys")
       (String.append ":["
          (String.append (Sim.q "certs/a")
             (String.append "," (String.append (Sim.q "certs/b") "]}"))))).

Lemma List_returns_keys_or_error_witness :
  fst (fst (run Sim.transport 2 (List Sim.r0 (Caller 1) "certs/" false)
                (Sim.world [Sim.status 200 two_keys])))
  = Some (["certs/a"; "certs/b"], None).
Proof.
  pose proof (List_returns_keys_or_error Sim.World Sim.transport Sim.r0
                (Caller 1) "certs/" false 2
                (Sim.world [Sim.status 200 two_keys])
                _ (["certs/a"; "certs/b"], None) _ eq_refl) as [[H _] _].
  destruct (H eq_refl) as (x & resp & lr & _ & _ & _ & _ & Hk).
  reflexivity.
Defined.

Lemma Stat_returns_info_or_error_witness :
  option_map fst
    (fst (fst (run Sim.transport 2 (Stat Sim.r0 (Caller 1) "k")
                   (Sim.world [Sim.status 200
                                 (Sim.stat_body "k" "last week" "7" "true")]))))
  = Some KeyInfo_zero.
Proof.
  pose proof (Stat_returns_info_or_error Sim.World Sim.transport Sim.r0
                (Caller 1) "k" 2
                (Sim.world [Sim.status 200
                              (Sim.stat_body "k" "last week" "7" "true")])
                _ (KeyInfo_zero, Some (ParseError RFC3339 "last week")) _
                eq_refl) as [_ H].
  apply (f_equal Some). apply H. discriminate.
Defined.

End ResultWitnesses.

Module LockWitnesses.
Import Http Go Rest Shape ShotFacts LockFacts.

#[local] Existing Instance Sim.lib.






End LockWitnesses.

(** ** Configuration, end to end *)

Module ConfigExtras.
Import Rest UnmarshalFacts.

Section Config.
Variable isNextOnNewLine : Caddyfile.Token -> Caddyfile.Token -> bool.

Lemma Next_false (d d1 : Caddyfile.Dispenser) :
  Caddyfile.Next d = (d1, false) -> d1 = d.
Proof.
  unfold Caddyfile.Next. destruct (_ <? _); [discriminate|].
  intros [= <-]. reflexivity.
Qed.

Lemma UnmarshalLoop_exhausts (d : Caddyfile.Dispenser) :
  forall r,
    Caddyfile.Next (fst (UnmarshalLoop isNextOnNewLine d r))
    = (fst (UnmarshalLoop isNextOnNewLine d r), false).
Proof.
  remember (Caddyfile.remaining d) as n eqn:En. revert d En.
  induction n as [n IH] using lt_wf_ind. intros d En r.
  rewrite UnmarshalLoop_unfold.
  destruct (Caddyfile.Next d) as [d1 [|]] eqn:E.
  - pose proof (Next_remaining _ _ E) as Hlt.
    pose proof (turn_remaining isNextOnNewLine d1 r) as Hle.
    eapply (IH (Caddyfile.remaining (fst (turn isNextOnNewLine d1 r))));
      [lia|reflexivity].
  - pose proof (Next_false _ _ E) as ->. cbn. exact E.
Qed.

Lemma UnmarshalLoop_tokens (d : Caddyfile.Dispenser) (r : RestStorage) :
  Caddyfile.tokens (fst (UnmarshalLoop isNextOnNewLine d r))
  = Caddyfile.tokens d.
Proof.
  apply (UnmarshalLoop_invariant isNextOnNewLine
           (fun d' _ => Caddyfile.tokens d' = Caddyfile.tokens d));
    [| |reflexivity].
  - intros d0 d1 r0 b Ht E. rewrite <- Ht.
    change d1 with (fst (d1, b)). rewrite <- E. apply Next_tokens.
  - intros d0 r0 Ht. rewrite turn_tokens. exact Ht.
Qed.

(** X10. [UnmarshalCaddyfile] reads the dispenser to its end: afterwards
    the tokens are the ones it was given and [d.Next()] is false, so a
    caller that goes on reading the same dispenser finds nothing left. *)
Theorem UnmarshalCaddyfile_reads_to_the_end (r : RestStorage)
        (d : Caddyfile.Dispenser) :
  let d' := snd (fst (UnmarshalCaddyfile isNextOnNewLine r d)) in
  Caddyfile.tokens d' = Caddyfile.tokens d /\
  Caddyfile.Next d' = (d', false) /\
  Caddyfile.len d - 1 <= Caddyfile.cursor d'.
Proof.
  rewrite UnmarshalCaddyfile_loop. cbn [fst snd].
  pose proof (UnmarshalLoop_tokens d r) as Ht.
  pose proof (UnmarshalLoop_exhausts d r) as Hn.
  split; [exact Ht|]. split; [exact Hn|].
  unfold Caddyfile.Next in Hn.
  destruct (Z.ltb_spec (Caddyfile.cursor (fst (UnmarshalLoop isNextOnNewLine d r)))
                       (Caddyfile.len (fst (UnmarshalLoop isNextOnNewLine d r)) - 1))
    as [Hlt|Hge]; [discriminate|].
  unfold Caddyfile.len in *. rewrite Ht in Hge. exact Hge.
Qed.

Lemma Endpoint_kept (r : RestStorage) (d : Caddyfile.Dispenser) :
  (forall t, In t (Caddyfile.tokens d) -> Caddyfile.Text t <> "endpoint") ->
  Endpoint (snd (UnmarshalLoop isNextOnNewLine d r)) = Endpoint r.
Proof.
  intros Hno.
  apply (UnmarshalLoop_invariant isNextOnNewLine
           (fun d' r' => Caddyfile.tokens d' = Caddyfile.tokens d /\
                         Endpoint r' = Endpoint r)); [| |auto].
  - intros d0 d1 r0 b [Ht He] E. split; [|exact He].
    rewrite <- Ht. change d1 with (fst (d1, b)). rewrite <- E.
    apply Next_tokens.
  - intros d0 r0 [Ht He]. split; [rewrite turn_tokens; exact Ht|].
    rewrite <- He.
    destruct (snd (Caddyfile.Args isNextOnNewLine d0 "")) eqn:Ea.
    + rewrite turn_with_argument by exact Ea. apply assign_Endpoint.
      destruct (Val_token d0) as [->|(t & Hin & ->)]; [discriminate|].
      apply Hno. rewrite <- Ht. exact Hin.
    + rewrite turn_no_argument by exact Ea. reflexivity.
Qed.

Lemma Token_kept (r : RestStorage) (d : Caddyfile.Dispenser) :
  (forall t, In t (Caddyfile.tokens d) -> Caddyfile.Text t <> "token") ->
  Token (snd (UnmarshalLoop isNextOnNewLine d r)) = Token r.
Proof.
  intros Hno.
  apply (UnmarshalLoop_invariant isNextOnNewLine
           (fun d' r' => Caddyfile.tokens d' = Caddyfile.tokens d /\
                         Token r' = Token r)); [| |auto].
  - intros d0 d1 r0 b [Ht He] E. split; [|exact He].
    rewrite <- Ht. change d1 with (fst (d1, b)). rewrite <- E.
    apply Next_tokens.
  - intros d0 r0 [Ht He]. split; [rewrite turn_tokens; exact Ht|].
    rewrite <- He.
    destruct (snd (Caddyfile.Args isNextOnNewLine d0 "")) eqn:Ea.
    + rewrite turn_with_argument by exact Ea. apply assign_Token.
      destruct (Val_token d0) as [->|(t & Hin & ->)]; [discriminate|].
      apply Hno. rewrite <- Ht. exact Hin.
    + rewrite turn_no_argument by exact Ea. reflexivity.
Qed.

(** X11. A configuration that never names a field does not pass
    validation: starting from a storage whose endpoint is empty, tokens
    none of which reads [endpoint] leave [Validate] failing with the
    endpoint message; starting from one whose token is empty, tokens none
    of which reads [token] leave [Validate] failing. *)
Theorem missing_directive_fails_validation (r : RestStorage)
        (d : Caddyfile.Dispenser) :
  let r' := fst (fst (UnmarshalCaddyfile isNextOnNewLine r d)) in
  (Endpoint r = "" ->
   (forall t, In t (Caddyfile.tokens d) -> Caddyfile.Text t <> "endpoint") ->
   Validate r' = Some (errorString "endpoint must be specified")) /\
  (Token r = "" ->
   (forall t, In t (Caddyfile.tokens d) -> Caddyfile.Text t <> "token") ->
   Validate r' <> None).
Proof.
  rewrite UnmarshalCaddyfile_loop. cbn [fst snd]. split.
  - intros He Hno. unfold Validate.
    rewrite (Endpoint_kept r d Hno), He. reflexivity.
  - intros Ht Hno. unfold Validate.
    rewrite (Token_kept r d Hno), Ht.
    destruct (String.eqb _ ""); discriminate.
Qed.

End Config.

(** The tokens of a storage block: the module name and the opening brace
    on the first line, one directive per line, the closing brace. *)
Definition block (name e t : string) : Caddyfile.Dispenser :=
  {| Caddyfile.tokens :=
       [tok 1 name; tok 1 "{";
        tok 2 "endpoint"; tok 2 e;
        tok 3 "token"; tok 3 t;
        tok 4 "}"];
     Caddyfile.cursor := -1 |}.

(** X12. Read from such a block, the storage holds the endpoint and the
    token written in it, whatever it held before and whatever the module
    is called, provided neither value is an opening brace (which the
    dispenser does not take for an argument). *)
Theorem block_sets_both_fields (name e t : string) (r : RestStorage) :
  e <> "{" -> t <> "{" ->
  UnmarshalCaddyfile by_line r (block name e t)
  = ({| Endpoint := e; Token := t; client := client r |},
     {| Caddyfile.tokens := Caddyfile.tokens (block name e t);
        Caddyfile.cursor := 6 |},
     None).
Proof.
  intros He Ht.
  apply String.eqb_neq in He. apply String.eqb_neq in Ht.
  rewrite UnmarshalCaddyfile_loop.
  assert (Hloop : UnmarshalLoop by_line (block name e t) r
                  = ({| Caddyfile.tokens := Caddyfile.tokens (block name e t);
                        Caddyfile.cursor := 6 |},
                     {| Endpoint := e; Token := t; client := client r |})).
  { unfold block.
    do 6 (rewrite UnmarshalLoop_unfold;
          cbv -[UnmarshalLoop String.eqb];
          rewrite ?He, ?Ht, ?String.eqb_refl;
          change (String.eqb "token" "endpoint") with false;
          cbv -[UnmarshalLoop String.eqb]).
    reflexivity. }
  rewrite Hloop. reflexivity.
Qed.

Lemma block_sets_both_fields_witness :
  UnmarshalCaddyfile by_line {| Endpoint := "old"; Token := "";
                                client := Some Http.Client_zero |}
    (block "rest" "https://kv.example/" "s3cret")
  = (Sim.r0,
     {| Caddyfile.tokens :=
          Caddyfile.tokens (block "rest" "https://kv.example/" "s3cret");
        Caddyfile.cursor := 6 |},
     None).
Proof.
  exact (block_sets_both_fields "rest" "https://kv.example/" "s3cret"
           {| Endpoint := "old"; Token := "";
                                client := Some Http.Client_zero |}
           (proj1 (String.eqb_neq "https://kv.example/" "{") eq_refl)
           (proj1 (String.eqb_neq "s3cret" "{") eq_refl)).
Defined.

Lemma missing_directive_fails_validation_witness :
  Validate
    (fst (fst (UnmarshalCaddyfile by_line {| Endpoint := ""; Token := ""; client := None |}
                 {| Caddyfile.tokens :=
                      [tok 1 "rest"; tok 1 "{"; tok 2 "token"; tok 2 "s3cret";
                       tok 3 "}"];
                    Caddyfile.cursor := -1 |})))
  = Some (errorString "endpoint must be specified").
Proof.
  apply (proj1 (missing_directive_fails_validation by_line
                  {| Endpoint := ""; Token := ""; client := None |}
                  {| Caddyfile.tokens :=
                       [tok 1 "rest"; tok 1 "{"; tok 2 "token"; tok 2 "s3cret";
                        tok 3 "}"];
                     Caddyfile.cursor := -1 |}) eq_refl).
  intros t0 Hin. cbn in Hin.
  repeat (destruct Hin as [<- | Hin]; [discriminate|]). destruct Hin.
Defined.

End ConfigExtras.

(* ================================================================== *)
(** ** Requests that cannot be built *)

Module BuildFacts.
Import Http Go Rest Storage Shape RunFacts RunShape PollsFacts ShotFacts
       InterfaceFacts.

Section Build.
Context {L : Lib}.
Variable W : Type.
Variable tr : Transport W.
Variables (r : RestStorage) (ctx : Context).

(** X15. A method returns without having called the server exactly when
    its request could not be built, that is when [json.Marshal] or
    [http.NewRequestWithContext] failed; the world is then as it was, and
    the method returns that error (never nil), [Exists] returns false. *)
Theorem returns_without_a_call (c : call) (fuel : nat) (w w' : W)
        (rep : reply) (log : list (Exchange W)) :
  run tr fuel (invoke r ctx c) w = (Some rep, w', log) ->
  (log = [] <-> exists err, request r ctx (op_name c) (payload r c) = inr err) /\
  (log = [] ->
   w' = w /\
   exists err,
     ((exists msg, err = MarshalError msg) \/ (exists msg, err = RequestError msg)) /\
     if has_error_result c then reply_error rep = Some err
     else rep = Bool false).
Proof.
  rewrite invoke_run.
  destruct (request r ctx (op_name c) (payload r c)) as [req|err] eqn:Ereq.
  - intros H.
    destruct (polls_log W tr _ (answer c) req _ _ _ _ _ H) as (_ & _ & C).
    destruct (C rep eq_refl) as (x & Hx & _).
    assert (Hlog : log <> []) by (intros ->; discriminate).
    split; [split|]; [contradiction|intros [err [=]]|contradiction].
  - destruct fuel as [|fuel]; [discriminate|]. intros [= <- <- <-].
    split; [split; eauto|]. intros _. split; [reflexivity|].
    exists err. split; [eapply request_error_kind; eassumption|].
    destruct c; reflexivity.
Qed.

End Build.

#[local] Existing Instance Sim.lib.

(** An endpoint that [url.Parse] refuses. *)
Definition bad_endpoint : RestStorage :=
  {| Endpoint := "https://kv example/"; Token := "s3cret";
     client := Some Client_zero |}.

Lemma returns_without_a_call_witness :
  snd (fst (run Sim.transport 3 (invoke bad_endpoint (Caller 1) (CallStat "k"))
                (Sim.world [Sim.status 200 EmptyString])))
  = Sim.world [Sim.status 200 EmptyString].
Proof.
  exact (proj1 (proj2 (returns_without_a_call Sim.World Sim.transport
                         bad_endpoint (Caller 1) (CallStat "k") 3
                         (Sim.world [Sim.status 200 EmptyString]) _ _ _ eq_refl)
                  eq_refl)).
Defined.

End BuildFacts.

(* ================================================================== *)
(** ** The revision before contexts against the present one *)

Module RevisionFacts.
Import Http Go Rest Storage Shape RunFacts RunShape PollsFacts ShotFacts
       InterfaceFacts Rest0Shape.

Section Revisions.
Context {L : Lib}.
Variable W : Type.
Variable tr : Transport W.
Variable r : Rest0.RestStorage.


(** X14. Every request of the earlier revision carries the background
    context, also those of [Lock], which is handed a context: no call of
    that revision can be cancelled by its caller. *)
Theorem earlier_revision_uses_background (ctx : Context) (c : call)
        (fuel : nat) (w w' : W) (res : option reply)
        (log : list (Exchange W)) (x : Exchange W) :
  run tr fuel (Rest0.invoke r ctx c) w = (res, w', log) ->
  In x log ->
  Ctx (sent x) = Background.
Proof.
  rewrite invoke0_run.
  destruct (request (upgraded r) Background (op_name c) (payload (upgraded r) c))
    as [req|err] eqn:E.
  - intros H Hin.
    destruct (polls_log W tr _ _ req _ _ _ _ _ H) as (A & _ & _).
    rewrite Forall_forall in A. destruct (A x Hin) as [-> _].
    apply request_fields in E. tauto.
  - intros [= <- <- <-] [].
Qed.

End Revisions.

#[local] Existing Instance Sim.lib.

Lemma earlier_revision_uses_background_witness :
  Ctx (sent (hd CancelFacts.third_call
               (snd (run Sim.transport 9
                         (Rest0.invoke Sim.r0_before (Caller 1) (CallLock "k"))
                         Rest0Facts.expired))))
  = Background.
Proof.
  exact (earlier_revision_uses_background Sim.World Sim.transport
           Sim.r0_before
           (Caller 1) (CallLock "k") 9 Rest0Facts.expired _ _ _ _
           eq_refl (or_introl eq_refl)).
Defined.

End RevisionFacts.
